(** * traefik-lang-redirect: the language negotiation middleware

    A shallow embedding of [lang_redirect.go].  Go strings are byte
    sequences, so they are modelled by [string] (a list of 8-bit
    [ascii]); [len] is [String.length].  Go maps ([http.Header],
    [url.Values]) are [gmap string (list string)].  The request is
    mutated in place by the Go code; here every operation returns the
    new request. *)

From Stdlib Require Import String Ascii ZArith List Lia Bool.
From stdpp Require Import gmap strings list.
Import ListNotations.

Local Open Scope string_scope.

(** ** The part of Go's [strings] package the plugin calls *)

Module GoStrings.

(** [s1 + s2] on Go strings. *)
Fixpoint concat (s1 s2 : string) : string :=
  match s1 with
  | EmptyString => s2
  | String c rest => String c (concat rest s2)
  end.

(** [strings.IndexByte(s, c) >= 0]. *)
Fixpoint ContainsByte (s : string) (c : ascii) : bool :=
  match s with
  | EmptyString => false
  | String d rest => if Ascii.eqb d c then true else ContainsByte rest c
  end.

(** [strings.HasPrefix(s, prefix)]. *)
Fixpoint HasPrefix (s prefix : string) {struct prefix} : bool :=
  match prefix, s with
  | EmptyString, _ => true
  | String _ _, EmptyString => false
  | String p prefix', String c s' => Ascii.eqb c p && HasPrefix s' prefix'
  end.

(** [s[n:]], clamped at the end of [s]. *)
Fixpoint skip (n : nat) (s : string) : string :=
  match n, s with
  | O, _ => s
  | S _, EmptyString => EmptyString
  | S n', String _ rest => skip n' rest
  end.

(** The bytes of [s] in reverse order. *)
Fixpoint reverse (s : string) : string :=
  match s with
  | EmptyString => EmptyString
  | String c rest => concat (reverse rest) (String c EmptyString)
  end.

(** The loop of [genSplit] for a one-byte separator: [s] is cut at its
    first [k] occurrences of [sep], and the rest is the last piece. *)
Fixpoint cut (sep : ascii) (k : nat) (s : string) : list string :=
  match s with
  | EmptyString => [EmptyString]
  | String c rest =>
      match k with
      | O => [s]
      | S k' =>
          if Ascii.eqb c sep then EmptyString :: cut sep k' rest
          else match cut sep k rest with
               | piece :: pieces => String c piece :: pieces
               | [] => [String c EmptyString]
               end
      end
  end.

(** [strings.Split(s, sep)] for a one-byte [sep] (every call site of the
    plugin passes one): all the pieces, one more than the separators. *)
Definition Split (s : string) (sep : ascii) : list string :=
  cut sep (String.length s) s.

(** [strings.SplitN(s, sep, n)] for a one-byte [sep]: [nil] for [n = 0],
    every piece for [n < 0], at most [n] pieces otherwise. *)
Definition SplitN (s : string) (sep : ascii) (n : Z) : list string :=
  if (n =? 0)%Z then []
  else if (n <? 0)%Z then Split s sep
  else cut sep (Z.to_nat (n - 1)) s.

Definition ofBytes (bs : list nat) : string :=
  fold_right (fun b s => String (ascii_of_nat b) s) EmptyString bs.

(** The UTF-8 encodings of the runes on which [unicode.IsSpace] holds:
    U+0009..U+000D, U+0020, U+0085, U+00A0, U+1680, U+2000..U+200A,
    U+2028, U+2029, U+202F, U+205F and U+3000. *)
Definition spaceRunes : list string :=
  map ofBytes
    [ [9]; [10]; [11]; [12]; [13]; [32];
      [194; 133]; [194; 160];
      [225; 154; 128];
      [226; 128; 128]; [226; 128; 129]; [226; 128; 130]; [226; 128; 131];
      [226; 128; 132]; [226; 128; 133]; [226; 128; 134]; [226; 128; 135];
      [226; 128; 136]; [226; 128; 137]; [226; 128; 138];
      [226; 128; 168]; [226; 128; 169]; [226; 128; 175];
      [226; 129; 159];
      [227; 128; 128] ].

(** The encoding among [runes] that [s] starts with, if any. *)
Definition leadingRune (runes : list string) (s : string) : option string :=
  find (fun t => HasPrefix s t) runes.

(** [strings.TrimLeftFunc]: drop leading runes of the class while there
    is one.  Every rune is at least one byte wide, so [String.length s]
    rounds always suffice. *)
Fixpoint trimLeftRunes (runes : list string) (fuel : nat) (s : string) : string :=
  match fuel with
  | O => s
  | S fuel' =>
      match leadingRune runes s with
      | Some t => trimLeftRunes runes fuel' (skip (String.length t) s)
      | None => s
      end
  end.

Definition TrimLeftSpace (s : string) : string :=
  trimLeftRunes spaceRunes (String.length s) s.

(** [strings.TrimRightFunc(s, unicode.IsSpace)]: the same scan from the
    end of the string, written on the reversed bytes. *)
Definition TrimRightSpace (s : string) : string :=
  reverse (trimLeftRunes (map reverse spaceRunes) (String.length s) (reverse s)).

(** [strings.TrimSpace(s)].  Go's fast path for ASCII bytes and its
    fallback to [TrimFunc] compute the same string: leading white space
    goes first, then trailing white space.  A byte sequence that is not
    the UTF-8 encoding of a white-space rune (an invalid or truncated
    sequence decodes to U+FFFD) is kept. *)
Definition TrimSpace (s : string) : string :=
  TrimRightSpace (TrimLeftSpace s).

End GoStrings.

Import GoStrings.

(** ** [net/http] and [net/url] as the plugin sees them *)

(** [http.Header] and [url.Values] are both [map[string][]string],
    here [gmap string (list string)]. *)

(** [h.Get(key)] and [v.Get(key)]: the first value stored under the
    key, the empty string when there is none.  The only header key the
    plugin uses, [Accept-Language], is already in canonical MIME form. *)
Definition Get (m : gmap string (list string)) (key : string) : string :=
  match m !! key with
  | Some (v :: _) => v
  | _ => ""
  end.

(** [h.Set(key, value)] and [v.Set(key, value)]: the key now holds the
    single value. *)
Definition Set_ (m : gmap string (list string)) (key value : string)
  : gmap string (list string) :=
  <[key := [value]]> m.

(** The fields of [url.URL] the plugin reads or writes; the others stay
    as they are for the whole request. *)
Record URL := mkURL {
  Path : string;
  RawQuery : string;
}.

(** The fields of [http.Request] the plugin reads or writes. *)
Record Request := mkRequest {
  Hdr : gmap string (list string);
  Url : URL;
}.

(** What the plugin can do to an [http.ResponseWriter]: the two helpers
    of [net/http] it calls, with their arguments. *)
Inductive ResponseCall :=
| HttpError (body : string) (code : Z)
| HttpRedirect (url : string) (code : Z).

(** A response writer is the calls made on it so far, oldest first. *)
Definition ResponseWriter := list ResponseCall.

Definition StatusFound : Z := 302.
Definition StatusInternalServerError : Z := 500.

(** [http.Error(w, body, code)]. *)
Definition http_Error (w : ResponseWriter) (body : string) (code : Z) : ResponseWriter :=
  (w ++ [HttpError body code])%list.

(** [http.Redirect(w, r, url, code)]. *)
Definition http_Redirect (w : ResponseWriter) (r : Request) (url : string) (code : Z)
  : ResponseWriter :=
  (w ++ [HttpRedirect url code])%list.

(** The functions of [net/url] that the plugin calls and whose bodies
    are not its own: [url.ParseQuery] (as [u.Query()] uses it, the
    error dropped), [Values.Encode] and [URL.String]. *)
Class NetURL := {
  ParseQuery : string -> gmap string (list string);
  Encode : gmap string (list string) -> string;
  URL_String : URL -> string;
}.

(** [u.Query()]. *)
Definition Query `{NetURL} (u : URL) : gmap string (list string) :=
  ParseQuery (RawQuery u).

(** ** The plugin *)

Definition StrategyHeader : string := "header".
Definition StrategyPath : string := "path".
Definition StrategyQuery : string := "query".

Record Config := mkConfig {
  Languages : list string;
  DefaultLanguage : string;
  DefaultLanguageHandling : bool;
  LanguageStrategy : string;
  LanguageParam : string;
  RedirectAfterHandling : bool;
}.

Definition CreateConfig : Config :=
  {| Languages := [];
     DefaultLanguage := "";
     DefaultLanguageHandling := false;
     LanguageStrategy := "header";
     LanguageParam := "lang";
     RedirectAfterHandling := false |}.

(** A Go [(T, error)] pair of which exactly one side is set. *)
Inductive result (T : Type) :=
| Ok (v : T)
| Err (msg : string).
Arguments Ok {T} v.
Arguments Err {T} msg.

Record LangRedirect {Handler : Type} := mkLangRedirect {
  next : Handler;
  config : Config;
}.
Arguments LangRedirect Handler : clear implicits.

Definition New {Handler : Type} (next : Handler) (config : Config)
  : result (LangRedirect Handler) :=
  if Nat.eqb (List.length (Languages config)) 0 then
    Err "languages are required"
  else if DefaultLanguage config =? "" then
    Err "DefaultLanguage is required"
  else if (LanguageStrategy config =? StrategyQuery) && (LanguageParam config =? "") then
    Err "languageParam is required when LanguageStrategy is 'query'"
  else
    Ok {| next := next; config := config |}.

(** *** Helpers *)

(** [strings.SplitN(part, ";", 2)] has at least one piece, so the index
    [[0]] never panics; [hd] reads it. *)
Definition parseAcceptLanguage (acceptLanguage : string) : list string :=
  let parts := Split acceptLanguage "," in
  map (fun part =>
         let lang := hd "" (SplitN part ";" 2) in
         TrimSpace lang)
      parts.

(** The inner loop of [getPreferredLanguage]: [lang] when it equals a
    supported tag. *)
Fixpoint matchSupported (lang : string) (supported : list string) : option string :=
  match supported with
  | [] => None
  | supportedLang :: rest =>
      if lang =? supportedLang then Some lang else matchSupported lang rest
  end.

(** The outer loop of [getPreferredLanguage]: the first [return]
    reached, if any. *)
Fixpoint matchLanguages (languages supported : list string) : option string :=
  match languages with
  | [] => None
  | lang :: rest =>
      match matchSupported lang supported with
      | Some l => Some l
      | None => matchLanguages rest supported
      end
  end.

Definition getPreferredLanguage {Handler : Type} (g : LangRedirect Handler)
    (acceptLanguage : string) : string :=
  let languages := parseAcceptLanguage acceptLanguage in
  match matchLanguages languages (Languages (config g)) with
  | Some lang => lang
  | None => DefaultLanguage (config g)
  end.

(** *** Handlers *)

(** The three implementations of the [Strategy] interface. *)
Inductive Strategy :=
| HeaderStrategy
| PathStrategy
| QueryStrategy (languageParam : string).

Definition getStrategy {Handler : Type} (g : LangRedirect Handler) : result Strategy :=
  if LanguageStrategy (config g) =? StrategyHeader then Ok HeaderStrategy
  else if LanguageStrategy (config g) =? StrategyPath then Ok PathStrategy
  else if LanguageStrategy (config g) =? StrategyQuery then
    Ok (QueryStrategy (LanguageParam (config g)))
  else Err (concat "invalid LanguageStrategy: " (LanguageStrategy (config g))).

Definition HeaderStrategy_GetLanguage (r : Request) : string :=
  Get (Hdr r) "Accept-Language".

Definition HeaderStrategy_SetLanguage (w : ResponseWriter) (r : Request) (language : string)
  : ResponseWriter * Request :=
  (w, {| Hdr := Set_ (Hdr r) "Accept-Language" language; Url := Url r |}).

Definition PathStrategy_GetLanguage (r : Request) : string :=
  let segments := Split (Path (Url r)) "/" in
  match segments with
  | _ :: segment1 :: _ =>
      if Nat.eqb (String.length segment1) 2 then segment1 else ""
  | _ => ""
  end.

Definition PathStrategy_SetLanguage (w : ResponseWriter) (r : Request) (language : string)
  : ResponseWriter * Request :=
  if Path (Url r) =? "/" then
    (w, {| Hdr := Hdr r;
           Url := {| Path := concat "/" language; RawQuery := RawQuery (Url r) |} |})
  else
    (w, {| Hdr := Hdr r;
           Url := {| Path := concat "/" (concat language (Path (Url r)));
                     RawQuery := RawQuery (Url r) |} |}).

Definition QueryStrategy_GetLanguage `{NetURL} (languageParam : string) (r : Request)
  : string :=
  let query := Query (Url r) in
  Get query languageParam.

Definition QueryStrategy_SetLanguage `{NetURL} (languageParam : string)
    (w : ResponseWriter) (r : Request) (language : string) : ResponseWriter * Request :=
  let query := Query (Url r) in
  let query := Set_ query languageParam language in
  (w, {| Hdr := Hdr r;
         Url := {| Path := Path (Url r); RawQuery := Encode query |} |}).

(** Method dispatch through the [Strategy] interface. *)
Definition GetLanguage `{NetURL} (s : Strategy) (r : Request) : string :=
  match s with
  | HeaderStrategy => HeaderStrategy_GetLanguage r
  | PathStrategy => PathStrategy_GetLanguage r
  | QueryStrategy languageParam => QueryStrategy_GetLanguage languageParam r
  end.

Definition SetLanguage `{NetURL} (s : Strategy) (w : ResponseWriter) (r : Request)
    (language : string) : ResponseWriter * Request :=
  match s with
  | HeaderStrategy => HeaderStrategy_SetLanguage w r language
  | PathStrategy => PathStrategy_SetLanguage w r language
  | QueryStrategy languageParam => QueryStrategy_SetLanguage languageParam w r language
  end.

(** *** The request handler *)

(** How [ServeHTTP] ends: by handing the writer and the request to
    [g.next.ServeHTTP], or by returning without calling it. *)
Inductive Outcome {Handler : Type} :=
| Forward (h : Handler) (w : ResponseWriter) (r : Request)
| Return (w : ResponseWriter) (r : Request).
Arguments Outcome Handler : clear implicits.

Definition writer {Handler : Type} (o : Outcome Handler) : ResponseWriter :=
  match o with Forward _ w _ | Return w _ => w end.

Definition request {Handler : Type} (o : Outcome Handler) : Request :=
  match o with Forward _ _ r | Return _ r => r end.

Definition ServeHTTP `{NetURL} {Handler : Type} (g : LangRedirect Handler)
    (w : ResponseWriter) (r : Request) : Outcome Handler :=
  let languageByHeader := getPreferredLanguage g (Get (Hdr r) "Accept-Language") in
  if negb (languageByHeader =? "")
     && (negb (languageByHeader =? DefaultLanguage (config g))
         || DefaultLanguageHandling (config g))
  then
    match getStrategy g with
    | Err _ =>
        Return (http_Error w "Internal Server Error" StatusInternalServerError) r
    | Ok strategy =>
        let languageByRequest := GetLanguage strategy r in
        if (languageByRequest =? "") || negb (languageByRequest =? languageByHeader)
        then
          let '(w1, r1) := SetLanguage strategy w r languageByHeader in
          if RedirectAfterHandling (config g) then
            Return (http_Redirect w1 r1 (URL_String (Url r1)) StatusFound) r1
          else
            Forward (next g) w1 r1
        else
          Forward (next g) w r
    end
  else
    Forward (next g) w r.

(** [ServeHTTP] run a second time on what the first run left. *)
Definition ServeHTTP_twice `{NetURL} {Handler : Type} (g : LangRedirect Handler)
    (w : ResponseWriter) (r : Request) : Outcome Handler :=
  let o := ServeHTTP g w r in
  ServeHTTP g (writer o) (request o).

(** ** Notions the specification uses *)

(** The text of [s] before its first ['/'] (all of [s] without one). *)
Fixpoint upToSlash (s : string) : string :=
  match s with
  | EmptyString => EmptyString
  | String c rest => if Ascii.eqb c "/" then EmptyString else String c (upToSlash rest)
  end.

(** The first path segment, in the specification's words "present" or
    not: what stands between the first ['/'] of the path and the next
    one (or the end of the path); absent in a path without ['/'].  For
    a request path, which begins with ['/'], this is the segment right
    after the leading slash: "en" in "/en/about", "" in "/". *)
Fixpoint spec_firstSegment (path : string) : option string :=
  match path with
  | EmptyString => None
  | String c rest =>
      if Ascii.eqb c "/" then Some (upToSlash rest) else spec_firstSegment rest
  end.

(** The three selectors [getStrategy] knows. *)
Definition recognized (selector : string) : Prop :=
  selector = StrategyHeader \/ selector = StrategyPath \/ selector = StrategyQuery.

(** Steps 1 and 2: the language resolved for a request. *)
Definition resolvedLanguage {Handler : Type} (g : LangRedirect Handler) (r : Request)
  : string :=
  getPreferredLanguage g (Get (Hdr r) "Accept-Language").

(** Step 3, the skip condition: the resolved language is empty, or it
    is the fallback while default-language handling is off. *)
Definition spec_skip {Handler : Type} (g : LangRedirect Handler) (r : Request) : bool :=
  (resolvedLanguage g r =? "")
  || ((resolvedLanguage g r =? DefaultLanguage (config g))
      && negb (DefaultLanguageHandling (config g))).

(** Step 6, the no-op condition: the value the strategy reads is
    non-empty and is the resolved language. *)
Definition spec_noop `{NetURL} {Handler : Type} (strategy : Strategy)
    (g : LangRedirect Handler) (r : Request) : bool :=
  negb (GetLanguage strategy r =? "")
  && (GetLanguage strategy r =? resolvedLanguage g r).

(** A mutation occurs in step 7 when the request is neither skipped nor
    already encoded. *)
Definition spec_mutation `{NetURL} {Handler : Type} (strategy : Strategy)
    (g : LangRedirect Handler) (r : Request) : bool :=
  negb (spec_skip g r) && negb (spec_noop strategy g r).

(** A stand-in for [net/url] that keeps the raw query as the single
    value of the key [q]; it serves to run the handler on closed
    examples. *)
Definition rawNetURL : NetURL :=
  {| ParseQuery := fun raw => {[ "q" := [raw] ]};
     Encode := fun v => Get v "q";
     URL_String := fun u => concat (Path u) (concat "?" (RawQuery u)) |}.

(** The configuration of the README, with a chosen selector and
    redirect flag. *)
Definition readmeConfig (strategy : string) (redirect : bool) : Config :=
  {| Languages := ["en"; "fr-CA"; "de"];
     DefaultLanguage := "en";
     DefaultLanguageHandling := false;
     LanguageStrategy := strategy;
     LanguageParam := "lang";
     RedirectAfterHandling := redirect |}.

(** A plugin instance whose next handler carries no data. *)
Definition plugin (c : Config) : LangRedirect unit :=
  {| next := tt; config := c |}.

(** A request with one [Accept-Language] value and a path. *)
Definition requestOf (acceptLanguage path : string) : Request :=
  {| Hdr := {[ "Accept-Language" := [acceptLanguage] ]};
     Url := {| Path := path; RawQuery := "" |} |}.

(** [strings.Count(s, sep)] for a one-byte [sep]: how often the byte
    occurs in [s]. *)
Fixpoint CountByte (s : string) (c : ascii) : nat :=
  match s with
  | EmptyString => 0
  | String d rest => if Ascii.eqb d c then S (CountByte rest c) else CountByte rest c
  end.

(** [CreateConfig()] with the two required fields filled in. *)
Definition minimalConfig (languages : list string) (defaultLanguage : string) : Config :=
  {| Languages := languages;
     DefaultLanguage := defaultLanguage;
     DefaultLanguageHandling := DefaultLanguageHandling CreateConfig;
     LanguageStrategy := LanguageStrategy CreateConfig;
     LanguageParam := LanguageParam CreateConfig;
     RedirectAfterHandling := RedirectAfterHandling CreateConfig |}.

(** ** Go strings: checks and lemmas *)

Example Split_empty : Split "" "," = [""].
Proof. reflexivity. Qed.

Example Split_two : Split "de,fr-CA" "," = ["de"; "fr-CA"].
Proof. reflexivity. Qed.

Example Split_path : Split "/en/about" "/" = [""; "en"; "about"].
Proof. reflexivity. Qed.

Example SplitN_q : SplitN "fr-CA;q=0.8;x" ";" 2 = ["fr-CA"; "q=0.8;x"].
Proof. reflexivity. Qed.

Example TrimSpace_ascii : TrimSpace "  fr-CA	 " = "fr-CA".
Proof. vm_compute. reflexivity. Qed.

Example TrimSpace_nbsp :
  TrimSpace (ofBytes [194; 160; 100; 101; 226; 128; 128; 32]) = "de".
Proof. vm_compute. reflexivity. Qed.

Example TrimSpace_invalid :
  TrimSpace (ofBytes [128; 194; 133]) = ofBytes [128].
Proof. vm_compute. reflexivity. Qed.

(** No white-space encoding starts or ends another one, so at most one
    of them leads (or ends) a string and the order of the table does
    not matter. *)
Example spaceRunes_prefix_free :
  forallb (fun t => forallb (fun u => (t =? u) || negb (HasPrefix t u)) spaceRunes)
    spaceRunes = true.
Proof. vm_compute. reflexivity. Qed.

Example spaceRunes_suffix_free :
  forallb (fun t => forallb (fun u => (t =? u) || negb (HasPrefix (reverse t) (reverse u)))
                      spaceRunes)
    spaceRunes = true.
Proof. vm_compute. reflexivity. Qed.

Module GoStringsFacts.

Lemma concat_empty_r s : concat s "" = s.
Proof. induction s as [|c s IH]; simpl; [reflexivity | now rewrite IH]. Qed.

Lemma concat_assoc s1 s2 s3 : concat (concat s1 s2) s3 = concat s1 (concat s2 s3).
Proof. induction s1 as [|c s1 IH]; simpl; [reflexivity | now rewrite IH]. Qed.

Lemma length_concat s1 s2 :
  String.length (concat s1 s2) = String.length s1 + String.length s2.
Proof. induction s1 as [|c s1 IH]; simpl; [reflexivity | now rewrite IH]. Qed.

Lemma ContainsByte_concat s1 s2 c :
  ContainsByte (concat s1 s2) c = ContainsByte s1 c || ContainsByte s2 c.
Proof.
  induction s1 as [|d s1 IH]; simpl; [reflexivity |].
  destruct (Ascii.eqb d c); [reflexivity | exact IH].
Qed.

Lemma reverse_concat s1 s2 :
  reverse (concat s1 s2) = concat (reverse s2) (reverse s1).
Proof.
  induction s1 as [|c s1 IH]; simpl.
  - now rewrite concat_empty_r.
  - now rewrite IH, concat_assoc.
Qed.

Lemma reverse_involutive s : reverse (reverse s) = s.
Proof.
  induction s as [|c s IH]; simpl; [reflexivity |].
  rewrite reverse_concat. simpl. now rewrite IH.
Qed.

Lemma length_reverse s : String.length (reverse s) = String.length s.
Proof.
  induction s as [|c s IH]; simpl; [reflexivity |].
  rewrite length_concat, IH. simpl. lia.
Qed.

Lemma ContainsByte_reverse s c : ContainsByte (reverse s) c = ContainsByte s c.
Proof.
  induction s as [|d s IH]; simpl; [reflexivity |].
  rewrite ContainsByte_concat, IH. simpl.
  destruct (Ascii.eqb d c), (ContainsByte s c); reflexivity.
Qed.

(** [s[n:]] is what is left of [s] behind some prefix. *)
Lemma skip_suffix n s : exists p, s = concat p (skip n s).
Proof.
  revert s. induction n as [|n IH]; intros s.
  - exists "". reflexivity.
  - destruct s as [|c s]; simpl.
    + exists "". reflexivity.
    + destruct (IH s) as [p Hp]. exists (String c p). simpl. now rewrite <- Hp.
Qed.

Lemma length_skip n s : String.length (skip n s) = String.length s - n.
Proof.
  revert s. induction n as [|n IH]; intros [|c s]; simpl; try lia. apply IH.
Qed.

Lemma HasPrefix_length s t : HasPrefix s t = true -> String.length t <= String.length s.
Proof.
  revert s. induction t as [|p t IH]; intros [|c s]; cbn; try lia; try discriminate.
  intros H. apply andb_true_iff in H as [_ H]. apply IH in H. lia.
Qed.

(** A prefix of [s] is still one when [s] is extended. *)
Lemma HasPrefix_concat s w t : HasPrefix s t = true -> HasPrefix (concat s w) t = true.
Proof.
  revert s. induction t as [|p t IH]; intros [|c s] H; simpl in *;
    try reflexivity; try discriminate.
  apply andb_true_iff in H as [Hc H].
  rewrite Hc. simpl. now apply IH.
Qed.

Lemma leadingRune_Some runes s t :
  leadingRune runes s = Some t -> In t runes /\ HasPrefix s t = true.
Proof. unfold leadingRune. intros H. now apply find_some in H. Qed.

Lemma leadingRune_concat runes s w :
  leadingRune runes (concat s w) = None -> leadingRune runes s = None.
Proof.
  unfold leadingRune. intros H.
  destruct (find (fun t => HasPrefix s t) runes) as [t|] eqn:E; [| reflexivity].
  apply find_some in E as [Hin Hp].
  apply (find_none _ _ H) in Hin. simpl in Hin.
  now rewrite (HasPrefix_concat _ w _ Hp) in Hin.
Qed.

Section Trim.

Variable runes : list string.
Hypothesis runes_nonempty : Forall (fun t => t <> "") runes.

Lemma trimLeftRunes_suffix fuel s :
  exists p, s = concat p (trimLeftRunes runes fuel s).
Proof using Type.
  revert s. induction fuel as [|fuel IH]; intros s; simpl.
  - exists "". reflexivity.
  - destruct (leadingRune runes s) as [t|].
    + destruct (skip_suffix (String.length t) s) as [p Hp].
      destruct (IH (skip (String.length t) s)) as [q Hq].
      exists (concat p q). rewrite concat_assoc, <- Hq. exact Hp.
    + exists "". reflexivity.
Qed.

(** With fuel for every byte, trimming stops only where no rune of the
    class leads. *)
Lemma trimLeftRunes_done fuel s :
  String.length s <= fuel -> leadingRune runes (trimLeftRunes runes fuel s) = None.
Proof using runes_nonempty.
  revert s. induction fuel as [|fuel IH]; intros s Hlen; simpl.
  - destruct s; [| simpl in Hlen; lia].
    unfold leadingRune.
    destruct (find (fun t => HasPrefix "" t) runes) as [t|] eqn:E; [| reflexivity].
    apply find_some in E as [Hin Hp].
    apply (proj1 (List.Forall_forall _ _) runes_nonempty) in Hin.
    destruct t; [congruence | discriminate].
  - destruct (leadingRune runes s) as [t|] eqn:E; [| exact E].
    apply IH. apply leadingRune_Some in E as [Hin Hp].
    apply (proj1 (List.Forall_forall _ _) runes_nonempty) in Hin.
    apply HasPrefix_length in Hp.
    rewrite length_skip. destruct t; [congruence | simpl in *; lia].
Qed.

Lemma trimLeftRunes_fix fuel s :
  leadingRune runes s = None -> trimLeftRunes runes fuel s = s.
Proof using Type. destruct fuel; simpl; [reflexivity |]. now intros ->. Qed.

End Trim.

Lemma spaceRunes_nonempty : Forall (fun t => t <> "") spaceRunes.
Proof. repeat constructor; discriminate. Qed.

Lemma spaceRunes_reverse_nonempty : Forall (fun t => t <> "") (map reverse spaceRunes).
Proof. repeat constructor; discriminate. Qed.

(** Left and right trimming only remove bytes. *)
Lemma TrimLeftSpace_suffix s : exists p, s = concat p (TrimLeftSpace s).
Proof. apply trimLeftRunes_suffix. Qed.

Lemma TrimRightSpace_prefix s : exists q, s = concat (TrimRightSpace s) q.
Proof.
  unfold TrimRightSpace.
  destruct (trimLeftRunes_suffix (map reverse spaceRunes) (String.length s) (reverse s))
    as [p Hp].
  exists (reverse p).
  rewrite <- (reverse_involutive s), Hp at 1.
  now rewrite reverse_concat.
Qed.

Lemma TrimLeftSpace_done s : leadingRune spaceRunes (TrimLeftSpace s) = None.
Proof. apply trimLeftRunes_done; [exact spaceRunes_nonempty | lia]. Qed.

Lemma TrimRightSpace_done s :
  leadingRune (map reverse spaceRunes) (reverse (TrimRightSpace s)) = None.
Proof.
  unfold TrimRightSpace. rewrite reverse_involutive.
  apply trimLeftRunes_done; [exact spaceRunes_reverse_nonempty |].
  rewrite length_reverse. lia.
Qed.

(** A trimmed string has no white space left at either end: trimming it
    again changes nothing. *)
Lemma TrimSpace_idempotent s : TrimSpace (TrimSpace s) = TrimSpace s.
Proof.
  unfold TrimSpace.
  set (u := TrimLeftSpace s). set (v := TrimRightSpace u).
  assert (Hv : TrimLeftSpace v = v).
  { apply trimLeftRunes_fix.
    destruct (TrimRightSpace_prefix u) as [q Hq]. fold v in Hq.
    apply (leadingRune_concat _ v q). rewrite <- Hq. apply TrimLeftSpace_done. }
  rewrite Hv. unfold TrimRightSpace at 1.
  rewrite trimLeftRunes_fix by apply TrimRightSpace_done.
  apply reverse_involutive.
Qed.

Lemma TrimSpace_ContainsByte s c :
  ContainsByte s c = false -> ContainsByte (TrimSpace s) c = false.
Proof.
  intros H. unfold TrimSpace.
  destruct (TrimLeftSpace_suffix s) as [p Hp].
  destruct (TrimRightSpace_prefix (TrimLeftSpace s)) as [q Hq].
  rewrite Hp, Hq, !ContainsByte_concat in H.
  apply orb_false_iff in H as [_ H]. now apply orb_false_iff in H as [H _].
Qed.

(** *** Splitting *)

Lemma cut_nonempty sep k s : cut sep k s <> [].
Proof.
  revert k. induction s as [|c s IH]; intros k; simpl; [discriminate |].
  destruct k; [discriminate |].
  destruct (Ascii.eqb c sep); [discriminate |].
  destruct (cut sep (S k) s); discriminate.
Qed.

(** Without a separator there is nothing to cut. *)
Lemma cut_no_sep sep k s : ContainsByte s sep = false -> cut sep k s = [s].
Proof.
  revert k. induction s as [|c s IH]; intros k; simpl; [reflexivity |].
  destruct (Ascii.eqb c sep); [discriminate |]. intros H.
  destruct k; [reflexivity |]. now rewrite IH.
Qed.

(** A byte absent from [s] is absent from every piece. *)
Lemma cut_pieces_sub sep k s c :
  ContainsByte s c = false ->
  Forall (fun piece => ContainsByte piece c = false) (cut sep k s).
Proof.
  revert k. induction s as [|d s IH]; intros k; simpl.
  - intros _. repeat constructor.
  - destruct (Ascii.eqb d c) eqn:Edc; [discriminate |]. intros H.
    destruct k.
    + repeat constructor. simpl. now rewrite Edc.
    + destruct (Ascii.eqb d sep).
      * constructor; [reflexivity | now apply IH].
      * specialize (IH (S k) H).
        destruct (cut sep (S k) s) as [|piece pieces].
        -- repeat constructor. simpl. now rewrite Edc.
        -- inversion IH; subst. constructor; [| assumption].
           simpl. now rewrite Edc.
Qed.

(** With a cut allowed at every separator, no piece holds one. *)
Lemma cut_pieces_no_sep sep k s :
  String.length s <= k ->
  Forall (fun piece => ContainsByte piece sep = false) (cut sep k s).
Proof.
  revert k. induction s as [|c s IH]; intros k Hk; simpl.
  - repeat constructor.
  - destruct k; [simpl in Hk; lia |].
    destruct (Ascii.eqb c sep) eqn:Ec.
    + constructor; [reflexivity |]. apply IH. simpl in Hk. lia.
    + assert (Hk' : String.length s <= S k) by (simpl in Hk; lia).
      specialize (IH (S k) Hk').
      destruct (cut sep (S k) s) as [|piece pieces] eqn:E.
      * now apply cut_nonempty in E.
      * inversion IH; subst. constructor; [| assumption].
        simpl. now rewrite Ec.
Qed.

Lemma Split_pieces_no_sep s sep :
  Forall (fun piece => ContainsByte piece sep = false) (Split s sep).
Proof. apply cut_pieces_no_sep. lia. Qed.

(** The first piece stops before the first separator. *)
Lemma cut_hd_no_sep sep k s : ContainsByte (hd "" (cut sep (S k) s)) sep = false.
Proof.
  induction s as [|c s IH]; simpl; [reflexivity |].
  destruct (Ascii.eqb c sep) eqn:Ec; [reflexivity |].
  destruct (cut sep (S k) s) as [|piece pieces]; simpl in *; now rewrite Ec.
Qed.

End GoStringsFacts.

Import GoStringsFacts.

(** ** The parser and the matcher *)

Module Negotiation.

Lemma SplitN_two part : SplitN part ";" 2 = cut ";" 1 part.
Proof. reflexivity. Qed.

(** [strings.SplitN(part, ";", 2)[0]] is always in range. *)
Lemma SplitN_two_nonempty part : SplitN part ";" 2 <> [].
Proof. rewrite SplitN_two. apply cut_nonempty. Qed.

Lemma hd_Forall (P : string -> Prop) (l : list string) :
  P "" -> Forall P l -> P (hd "" l).
Proof. intros H0 Hl. destruct Hl; simpl; assumption. Qed.

(** Every candidate the parser yields is a bare tag: no [','], no [';']
    and no white space at either end. *)
Lemma parseAcceptLanguage_candidate h c :
  In c (parseAcceptLanguage h) ->
  ContainsByte c "," = false /\ ContainsByte c ";" = false /\ TrimSpace c = c.
Proof.
  unfold parseAcceptLanguage. intros Hin.
  apply in_map_iff in Hin as (part & <- & Hpart).
  pose proof (Split_pieces_no_sep h ",") as Hno.
  apply (proj1 (List.Forall_forall _ _) Hno) in Hpart.
  rewrite SplitN_two. repeat split.
  - apply TrimSpace_ContainsByte.
    apply (hd_Forall (fun p => ContainsByte p "," = false)); [reflexivity |].
    now apply cut_pieces_sub.
  - apply TrimSpace_ContainsByte. apply cut_hd_no_sep.
  - apply TrimSpace_idempotent.
Qed.

(** The parser returns a bare tag as its only candidate. *)
Lemma parseAcceptLanguage_bare c :
  ContainsByte c "," = false -> ContainsByte c ";" = false -> TrimSpace c = c ->
  parseAcceptLanguage c = [c].
Proof.
  intros Hcomma Hsemi Htrim. unfold parseAcceptLanguage, Split.
  rewrite (cut_no_sep _ _ _ Hcomma). simpl map.
  rewrite SplitN_two, (cut_no_sep _ _ _ Hsemi). simpl hd.
  now rewrite Htrim.
Qed.

Lemma matchSupported_Some lang supported l :
  matchSupported lang supported = Some l -> l = lang /\ In lang supported.
Proof.
  induction supported as [|s rest IH]; simpl; [discriminate |].
  destruct (String.eqb_spec lang s) as [->|Hne].
  - intros [= <-]. auto.
  - intros H. apply IH in H as [-> Hin]. auto.
Qed.

Lemma matchSupported_In lang supported :
  In lang supported -> matchSupported lang supported = Some lang.
Proof.
  induction supported as [|s rest IH]; simpl; [tauto |].
  destruct (String.eqb_spec lang s) as [->|Hne]; [reflexivity |].
  intros [Heq | Hin]; [congruence | auto].
Qed.

Lemma matchSupported_None lang supported :
  ~ In lang supported -> matchSupported lang supported = None.
Proof.
  intros Hnot. destruct (matchSupported lang supported) as [l|] eqn:E; [| reflexivity].
  apply matchSupported_Some in E as [_ Hin]. contradiction.
Qed.

Lemma matchLanguages_Some languages supported l :
  matchLanguages languages supported = Some l -> In l languages /\ In l supported.
Proof.
  induction languages as [|lang rest IH]; simpl; [discriminate |].
  destruct (matchSupported lang supported) as [l'|] eqn:E.
  - intros [= <-]. apply matchSupported_Some in E as [-> Hin]. auto.
  - intros H. apply IH in H as [H1 H2]. auto.
Qed.

Lemma matchLanguages_None languages supported :
  (forall x, In x languages -> ~ In x supported) ->
  matchLanguages languages supported = None.
Proof.
  induction languages as [|lang rest IH]; simpl; [reflexivity |]. intros Hnot.
  rewrite matchSupported_None by (apply Hnot; auto).
  apply IH. intros x Hx. apply Hnot. auto.
Qed.

(** The scan stops at the first candidate that is supported. *)
Lemma matchLanguages_first pre c post supported :
  (forall x, In x pre -> ~ In x supported) -> In c supported ->
  matchLanguages (pre ++ c :: post) supported = Some c.
Proof.
  induction pre as [|lang pre IH]; simpl; intros Hpre Hc.
  - now rewrite matchSupported_In.
  - rewrite matchSupported_None by (apply Hpre; auto).
    apply IH; [| assumption]. intros x Hx. apply Hpre. auto.
Qed.

Section Resolved.

Context {Handler : Type} (g : LangRedirect Handler).

(** The resolved language is the fallback or a supported candidate. *)
Lemma getPreferredLanguage_cases h :
  getPreferredLanguage g h = DefaultLanguage (config g)
  \/ (In (getPreferredLanguage g h) (parseAcceptLanguage h)
      /\ In (getPreferredLanguage g h) (Languages (config g))).
Proof.
  unfold getPreferredLanguage.
  destruct (matchLanguages _ _) as [l|] eqn:E; [| now left].
  right. now apply matchLanguages_Some in E.
Qed.

(** Resolving an already resolved language gives it back, provided the
    parser takes the fallback for a single bare tag. *)
Lemma getPreferredLanguage_resolved h :
  parseAcceptLanguage (DefaultLanguage (config g)) = [DefaultLanguage (config g)] ->
  getPreferredLanguage g (getPreferredLanguage g h) = getPreferredLanguage g h.
Proof.
  intros Hdef.
  destruct (getPreferredLanguage_cases h) as [-> | [Hcand Hsup]].
  - unfold getPreferredLanguage. rewrite Hdef. simpl.
    destruct (matchSupported _ _) as [l|] eqn:E; [| reflexivity].
    now apply matchSupported_Some in E as [-> _].
  - set (l := getPreferredLanguage g h) in *.
    apply parseAcceptLanguage_candidate in Hcand as (H1 & H2 & H3).
    unfold getPreferredLanguage at 1.
    rewrite (parseAcceptLanguage_bare l H1 H2 H3). simpl.
    now rewrite matchSupported_In.
Qed.

End Resolved.

End Negotiation.

Import Negotiation.

(** ** The request handler *)

Module Engine.

Section Handler.

Context `{NetURL} {Handler : Type} (g : LangRedirect Handler).

(** No [SetLanguage] method touches the response writer. *)
Lemma SetLanguage_writer strategy w r language :
  fst (SetLanguage strategy w r language) = w.
Proof.
  destruct strategy; simpl; try reflexivity.
  unfold PathStrategy_SetLanguage. now destruct (_ =? _).
Qed.

(** The guard of [ServeHTTP] is the negation of the skip condition. *)
Lemma guard_skip r :
  negb (resolvedLanguage g r =? "")
  && (negb (resolvedLanguage g r =? DefaultLanguage (config g))
      || DefaultLanguageHandling (config g))
  = negb (spec_skip g r).
Proof.
  unfold spec_skip.
  destruct (_ =? ""), (_ =? DefaultLanguage _), (DefaultLanguageHandling _); reflexivity.
Qed.

Lemma write_noop strategy r :
  (GetLanguage strategy r =? "")
  || negb (GetLanguage strategy r =? resolvedLanguage g r)
  = negb (spec_noop strategy g r).
Proof.
  unfold spec_noop. destruct (_ =? ""), (_ =? resolvedLanguage _ _); reflexivity.
Qed.

Lemma ServeHTTP_skip w r :
  spec_skip g r = true -> ServeHTTP g w r = Forward (next g) w r.
Proof.
  intros Hskip. unfold ServeHTTP. fold (resolvedLanguage g r).
  now rewrite guard_skip, Hskip.
Qed.

Lemma ServeHTTP_error w r msg :
  spec_skip g r = false -> getStrategy g = Err msg ->
  ServeHTTP g w r
  = Return (http_Error w "Internal Server Error" StatusInternalServerError) r.
Proof.
  intros Hskip Hs. unfold ServeHTTP. fold (resolvedLanguage g r).
  now rewrite guard_skip, Hskip, Hs.
Qed.

Lemma ServeHTTP_noop w r strategy :
  spec_skip g r = false -> getStrategy g = Ok strategy ->
  spec_noop strategy g r = true ->
  ServeHTTP g w r = Forward (next g) w r.
Proof.
  intros Hskip Hs Hnoop. unfold ServeHTTP. fold (resolvedLanguage g r).
  now rewrite guard_skip, Hskip, Hs, write_noop, Hnoop.
Qed.

Lemma ServeHTTP_write w r strategy :
  spec_skip g r = false -> getStrategy g = Ok strategy ->
  spec_noop strategy g r = false ->
  ServeHTTP g w r
  = let r1 := snd (SetLanguage strategy w r (resolvedLanguage g r)) in
    if RedirectAfterHandling (config g)
    then Return (http_Redirect w r1 (URL_String (Url r1)) StatusFound) r1
    else Forward (next g) w r1.
Proof.
  intros Hskip Hs Hnoop. unfold ServeHTTP. fold (resolvedLanguage g r).
  rewrite guard_skip, Hskip, Hs, write_noop, Hnoop. simpl.
  pose proof (SetLanguage_writer strategy w r (resolvedLanguage g r)) as Hw.
  destruct (SetLanguage strategy w r (resolvedLanguage g r)) as [w1 r1].
  simpl in *. now subst w1.
Qed.

Lemma spec_skip_false r :
  spec_skip g r = false ->
  resolvedLanguage g r <> ""
  /\ (resolvedLanguage g r <> DefaultLanguage (config g)
      \/ DefaultLanguageHandling (config g) = true).
Proof.
  unfold spec_skip. intros Hs. apply orb_false_iff in Hs as [H1 H2].
  apply String.eqb_neq in H1. split; [assumption |].
  apply andb_false_iff in H2 as [H2 | H2].
  - left. now apply String.eqb_neq.
  - right. now apply negb_false_iff.
Qed.

End Handler.

(** [getStrategy] by selector. *)
Lemma getStrategy_header {Handler} (g : LangRedirect Handler) :
  LanguageStrategy (config g) = StrategyHeader -> getStrategy g = Ok HeaderStrategy.
Proof. unfold getStrategy. now intros ->. Qed.

Lemma getStrategy_path {Handler} (g : LangRedirect Handler) :
  LanguageStrategy (config g) = StrategyPath -> getStrategy g = Ok PathStrategy.
Proof. unfold getStrategy. now intros ->. Qed.

Lemma getStrategy_unrecognized {Handler} (g : LangRedirect Handler) :
  ~ recognized (LanguageStrategy (config g)) ->
  getStrategy g = Err (concat "invalid LanguageStrategy: " (LanguageStrategy (config g))).
Proof.
  unfold getStrategy, recognized. intros Hnot.
  destruct (String.eqb_spec (LanguageStrategy (config g)) StrategyHeader); [tauto |].
  destruct (String.eqb_spec (LanguageStrategy (config g)) StrategyPath); [tauto |].
  destruct (String.eqb_spec (LanguageStrategy (config g)) StrategyQuery); [tauto |].
  reflexivity.
Qed.

End Engine.

Import Engine.

(** ** Construction *)

(** C1, as stated, fails: [New] never looks at the selector beyond the
    query-parameter check, so a configuration whose selector is
    ["cookie"] yields an instance. *)
Lemma New_accepts_unrecognized_selector :
  ~ recognized "cookie"
  /\ New tt (readmeConfig "cookie" false) = Ok (plugin (readmeConfig "cookie" false)).
Proof.
  split; [| reflexivity].
  unfold recognized. intros [E | [E | E]]; discriminate E.
Qed.

(** C1, amended: for a selector that is none of the three recognized
    values, [getStrategy] fails with the "invalid LanguageStrategy"
    error; [New] still produces the instance whenever the language list
    and the fallback are non-empty; and the failure shows at request
    time, where every request that is not skipped is answered with 500
    Internal Server Error and is not forwarded. *)
Theorem unrecognized_selector_fails_at_request_time
    `{NetURL} {Handler : Type} (nxt : Handler) (cfg : Config) :
  ~ recognized (LanguageStrategy cfg) ->
  getStrategy (mkLangRedirect Handler nxt cfg)
  = Err (concat "invalid LanguageStrategy: " (LanguageStrategy cfg))
  /\ (Languages cfg <> [] -> DefaultLanguage cfg <> "" ->
      New nxt cfg = Ok (mkLangRedirect Handler nxt cfg))
  /\ (forall w r,
        spec_skip (mkLangRedirect Handler nxt cfg) r = false ->
        ServeHTTP (mkLangRedirect Handler nxt cfg) w r
        = Return (w ++ [HttpError "Internal Server Error" 500])%list r).
Proof.
  intros Hnot.
  pose proof (getStrategy_unrecognized (mkLangRedirect Handler nxt cfg) Hnot) as Hs.
  simpl in Hs. repeat split.
  - exact Hs.
  - intros Hl Hd. unfold New.
    destruct (Languages cfg) as [|l ls]; [congruence |]. simpl.
    destruct (String.eqb_spec (DefaultLanguage cfg) ""); [congruence |].
    destruct (String.eqb_spec (LanguageStrategy cfg) StrategyQuery) as [Hq|]; [| reflexivity].
    exfalso. apply Hnot. unfold recognized. auto.
  - intros w r Hskip. now apply (ServeHTTP_error _ w r _ Hskip Hs).
Qed.

Lemma unrecognized_selector_witness :
  getStrategy (plugin (readmeConfig "cookie" false)) = Err "invalid LanguageStrategy: cookie"
  /\ New tt (readmeConfig "cookie" false) = Ok (plugin (readmeConfig "cookie" false))
  /\ @ServeHTTP rawNetURL unit (plugin (readmeConfig "cookie" false)) []
       (requestOf "de" "/about")
     = Return [HttpError "Internal Server Error" 500] (requestOf "de" "/about").
Proof.
  destruct (@unrecognized_selector_fails_at_request_time rawNetURL unit tt
              (readmeConfig "cookie" false)) as (Hs & Hnew & Hserve).
  - unfold recognized. intros [E | [E | E]]; discriminate E.
  - split; [exact Hs |]. split.
    + apply Hnew; discriminate.
    + apply (Hserve [] (requestOf "de" "/about")). vm_compute. reflexivity.
Defined.

(** ** Resolving the language *)

(** C2, as stated, fails: an empty tag in the supported list matches the
    empty candidate that the parser yields for an empty header. *)
Lemma resolved_language_empty :
  DefaultLanguage (mkConfig [""] "en" false "header" "lang" false) <> ""
  /\ getPreferredLanguage (plugin (mkConfig [""] "en" false "header" "lang" false)) "" = "".
Proof. split; [discriminate | reflexivity]. Qed.

(** C2, amended: for every configuration with a non-empty fallback and
    no empty tag in its supported list, and every raw header value, the
    resolved language is a non-empty string. *)
Theorem resolved_language_nonempty {Handler : Type} (g : LangRedirect Handler) (h : string) :
  DefaultLanguage (config g) <> "" ->
  ~ In "" (Languages (config g)) ->
  getPreferredLanguage g h <> "".
Proof.
  intros Hdef Hsup Hempty.
  destruct (getPreferredLanguage_cases g h) as [E | [_ Hin]].
  - congruence.
  - rewrite Hempty in Hin. contradiction.
Qed.

Lemma resolved_language_nonempty_witness :
  getPreferredLanguage (plugin (readmeConfig "header" false)) "fr;q=0.9, , de" = "de"
  /\ getPreferredLanguage (plugin (readmeConfig "header" false)) "fr;q=0.9, , de" <> "".
Proof.
  split; [reflexivity |].
  apply (@resolved_language_nonempty unit (plugin (readmeConfig "header" false))).
  - discriminate.
  - simpl. intros [E | [E | [E | []]]]; discriminate E.
Defined.

(** C3: the matcher returns the first candidate, in the order of the
    candidate sequence, that is equal byte for byte to a supported tag,
    whatever the order of the supported list, and the fallback when no
    candidate is supported.  With the README's supported list
    [en, fr-CA, de], the header "de,fr-CA" resolves to "de". *)
Theorem matcher_first_supported_candidate :
  (forall (supported pre post : list string) (c : string),
      (forall x, In x pre -> ~ In x supported) -> In c supported ->
      matchLanguages (pre ++ c :: post) supported = Some c)
  /\ (forall {Handler : Type} (g : LangRedirect Handler) (h : string)
             (pre post : list string) (c : string),
         parseAcceptLanguage h = (pre ++ c :: post)%list ->
         (forall x, In x pre -> ~ In x (Languages (config g))) ->
         In c (Languages (config g)) ->
         getPreferredLanguage g h = c)
  /\ (forall {Handler : Type} (g : LangRedirect Handler) (h : string),
         (forall x, In x (parseAcceptLanguage h) -> ~ In x (Languages (config g))) ->
         getPreferredLanguage g h = DefaultLanguage (config g))
  /\ getPreferredLanguage (plugin (readmeConfig "header" false)) "de,fr-CA" = "de"
  /\ getPreferredLanguage (plugin (readmeConfig "header" false)) "DE,fr-ca" = "en".
Proof.
  split; [| split; [| split; [| split]]].
  - intros supported pre post c Hpre Hc. now apply matchLanguages_first.
  - intros Handler g h pre post c Hparse Hpre Hc. unfold getPreferredLanguage.
    now rewrite Hparse, (matchLanguages_first pre c post _ Hpre Hc).
  - intros Handler g h Hnone. unfold getPreferredLanguage.
    now rewrite (matchLanguages_None _ _ Hnone).
  - reflexivity.
  - reflexivity.
Qed.

Lemma matcher_first_supported_candidate_witness :
  matchLanguages (["it"; "pt"] ++ "de" :: ["en"]) ["en"; "fr-CA"; "de"] = Some "de"
  /\ getPreferredLanguage (plugin (readmeConfig "header" false)) "it, de;q=0.8, en" = "de"
  /\ getPreferredLanguage (plugin (readmeConfig "header" false)) "it, pt;q=0.8" = "en".
Proof.
  destruct matcher_first_supported_candidate as (Hloop & Hfirst & Hnone & _).
  split; [| split].
  - apply Hloop.
    + simpl. intros x [<- | [<- | []]] [E | [E | [E | []]]]; discriminate E.
    + simpl. auto.
  - apply (Hfirst unit (plugin (readmeConfig "header" false)) _ ["it"] ["en"]).
    + reflexivity.
    + simpl. intros x [<- | []] [E | [E | [E | []]]]; discriminate E.
    + simpl. auto.
  - apply (Hnone unit (plugin (readmeConfig "header" false))).
    simpl. intros x [<- | [<- | []]] [E | [E | [E | []]]]; discriminate E.
Defined.

(** C6, as stated, fails: with an empty tag among the supported ones the
    empty header resolves to that empty tag, not to the fallback. *)
Lemma empty_header_not_fallback :
  Languages (mkConfig ["en"; ""] "en" false "header" "lang" false) <> []
  /\ getPreferredLanguage (plugin (mkConfig ["en"; ""] "en" false "header" "lang" false)) ""
     = ""
  /\ DefaultLanguage (mkConfig ["en"; ""] "en" false "header" "lang" false) = "en".
Proof. split; [discriminate | split; reflexivity]. Qed.

(** C6, amended: for every configuration whose supported list holds no
    empty tag, an empty raw header resolves to the configured
    fallback. *)
Theorem empty_header_resolves_to_fallback {Handler : Type} (g : LangRedirect Handler) :
  ~ In "" (Languages (config g)) ->
  getPreferredLanguage g "" = DefaultLanguage (config g).
Proof.
  intros Hsup. unfold getPreferredLanguage.
  rewrite matchLanguages_None; [reflexivity |].
  intros x [<- | []]. exact Hsup.
Qed.

Lemma empty_header_resolves_to_fallback_witness :
  getPreferredLanguage (plugin (readmeConfig "path" true)) "" = "en".
Proof.
  apply (@empty_header_resolves_to_fallback unit (plugin (readmeConfig "path" true))).
  simpl. intros [E | [E | [E | []]]]; discriminate E.
Defined.

(** ** Handling a request *)

(** C5: with default-language handling off, a request whose resolved
    language is the fallback is handed to the next handler as it came,
    header, path and query untouched and nothing written to the
    response, whatever the configured strategy. *)
Theorem fallback_request_forwarded_unchanged
    `{NetURL} {Handler : Type} (g : LangRedirect Handler) (w : ResponseWriter) (r : Request) :
  DefaultLanguageHandling (config g) = false ->
  resolvedLanguage g r = DefaultLanguage (config g) ->
  ServeHTTP g w r = Forward (next g) w r.
Proof.
  intros Hoff Hres. apply ServeHTTP_skip. unfold spec_skip.
  rewrite Hres, Hoff, String.eqb_refl. simpl. apply orb_true_r.
Qed.

Lemma fallback_request_forwarded_unchanged_witness :
  @ServeHTTP rawNetURL unit (plugin (readmeConfig "query" true)) []
    (requestOf "it, en;q=0.5" "/about")
  = Forward tt [] (requestOf "it, en;q=0.5" "/about").
Proof.
  apply (@fallback_request_forwarded_unchanged rawNetURL unit
           (plugin (readmeConfig "query" true))); reflexivity.
Defined.

(** C4: when the write step ran and redirect-after-handling is on, the
    response gets a 302 redirect to the URL of the request as the write
    left it, and the next handler is not called; in every other case
    with a usable strategy, and whenever the request is skipped, the
    request (mutated if the write step ran) goes to the next handler
    and the response is left alone. *)
Theorem redirect_after_mutation
    `{NetURL} {Handler : Type} (g : LangRedirect Handler) (w : ResponseWriter) (r : Request) :
  (forall strategy,
      getStrategy g = Ok strategy ->
      let mutated := snd (SetLanguage strategy w r (resolvedLanguage g r)) in
      (spec_mutation strategy g r = true ->
       RedirectAfterHandling (config g) = true ->
       ServeHTTP g w r
       = Return (w ++ [HttpRedirect (URL_String (Url mutated)) 302])%list mutated)
      /\ (spec_mutation strategy g r = true ->
          RedirectAfterHandling (config g) = false ->
          ServeHTTP g w r = Forward (next g) w mutated)
      /\ (spec_mutation strategy g r = false ->
          ServeHTTP g w r = Forward (next g) w r))
  /\ (spec_skip g r = true -> ServeHTTP g w r = Forward (next g) w r).
Proof.
  split; [| apply ServeHTTP_skip].
  intros strategy Hs mutated. unfold spec_mutation.
  destruct (spec_skip g r) eqn:Hskip; simpl.
  - repeat split; try discriminate. intros _. now apply ServeHTTP_skip.
  - destruct (spec_noop strategy g r) eqn:Hnoop; simpl.
    + repeat split; try discriminate. intros _. now apply (ServeHTTP_noop g w r strategy).
    + pose proof (ServeHTTP_write g w r strategy Hskip Hs Hnoop) as Hw.
      fold mutated in Hw. simpl in Hw.
      repeat split; try discriminate; intros _ Hflag; now rewrite Hflag in Hw.
Qed.

Lemma redirect_after_mutation_witness :
  @ServeHTTP rawNetURL unit (plugin (readmeConfig "path" true)) []
    (requestOf "de" "/about")
  = Return [HttpRedirect "/de/about?" 302] (requestOf "de" "/de/about")
  /\ @ServeHTTP rawNetURL unit (plugin (readmeConfig "path" false)) []
       (requestOf "de" "/about")
     = Forward tt [] (requestOf "de" "/de/about")
  /\ @ServeHTTP rawNetURL unit (plugin (readmeConfig "path" true)) []
       (requestOf "de" "/de/about")
     = Forward tt [] (requestOf "de" "/de/about")
  /\ @ServeHTTP rawNetURL unit (plugin (readmeConfig "path" true)) []
       (requestOf "en" "/about")
     = Forward tt [] (requestOf "en" "/about").
Proof.
  split; [| split; [| split]].
  - apply (proj1 (@redirect_after_mutation rawNetURL unit
                    (plugin (readmeConfig "path" true)) [] (requestOf "de" "/about"))
             PathStrategy); reflexivity.
  - apply (proj1 (@redirect_after_mutation rawNetURL unit
                    (plugin (readmeConfig "path" false)) [] (requestOf "de" "/about"))
             PathStrategy); reflexivity.
  - apply (proj1 (@redirect_after_mutation rawNetURL unit
                    (plugin (readmeConfig "path" true)) [] (requestOf "de" "/de/about"))
             PathStrategy); reflexivity.
  - apply (proj2 (@redirect_after_mutation rawNetURL unit
                    (plugin (readmeConfig "path" true)) [] (requestOf "en" "/about")));
      reflexivity.
Defined.

(** ** The header strategy, twice *)

Lemma Get_Set_ (m : gmap string (list string)) key value : Get (Set_ m key value) key = value.
Proof. unfold Get, Set_. now rewrite lookup_insert_eq. Qed.

(** C7, as stated, fails: a fallback that the parser reads as a list
    ("fr,de") is written to the header by the first run and resolved to
    one of its members ("de") by the second. *)
Lemma header_strategy_second_run_differs :
  LanguageStrategy (mkConfig ["de"] "fr,de" true "header" "lang" false) = StrategyHeader
  /\ RedirectAfterHandling (mkConfig ["de"] "fr,de" true "header" "lang" false) = false
  /\ Get (Hdr (request (@ServeHTTP rawNetURL unit
                          (plugin (mkConfig ["de"] "fr,de" true "header" "lang" false)) []
                          (requestOf "it" "/"))))
         "Accept-Language" = "fr,de"
  /\ Get (Hdr (request (@ServeHTTP_twice rawNetURL unit
                          (plugin (mkConfig ["de"] "fr,de" true "header" "lang" false)) []
                          (requestOf "it" "/"))))
         "Accept-Language" = "de".
Proof. repeat split; vm_compute; reflexivity. Qed.

(** C7, amended: under the header strategy with redirect-after-handling
    off, and a fallback that the parser reads as the single tag it is
    (no [','], no [';'], no white space around it), a second run of the
    handler on the request left by the first run changes nothing: the
    outcome, and with it the final [Accept-Language] value, is that of
    the first run. *)
Theorem header_strategy_idempotent
    `{NetURL} {Handler : Type} (g : LangRedirect Handler) (w : ResponseWriter) (r : Request) :
  LanguageStrategy (config g) = StrategyHeader ->
  RedirectAfterHandling (config g) = false ->
  parseAcceptLanguage (DefaultLanguage (config g)) = [DefaultLanguage (config g)] ->
  Get (Hdr (request (ServeHTTP_twice g w r))) "Accept-Language"
  = Get (Hdr (request (ServeHTTP g w r))) "Accept-Language"
  /\ ServeHTTP_twice g w r = ServeHTTP g w r.
Proof.
  intros Hsel Hflag Hdef.
  assert (Htwice : ServeHTTP_twice g w r = ServeHTTP g w r);
    [| now rewrite Htwice].
  apply getStrategy_header in Hsel. unfold ServeHTTP_twice.
  destruct (spec_skip g r) eqn:Hskip.
  { rewrite (ServeHTTP_skip g w r Hskip). simpl. now apply ServeHTTP_skip. }
  destruct (spec_noop HeaderStrategy g r) eqn:Hnoop.
  { rewrite (ServeHTTP_noop g w r _ Hskip Hsel Hnoop). simpl.
    now apply (ServeHTTP_noop g w r HeaderStrategy). }
  rewrite (ServeHTTP_write g w r _ Hskip Hsel Hnoop), Hflag. simpl.
  set (lang := resolvedLanguage g r).
  set (r1 := {| Hdr := Set_ (Hdr r) "Accept-Language" lang; Url := Url r |}).
  assert (Hres : resolvedLanguage g r1 = lang).
  { unfold resolvedLanguage, r1. simpl. rewrite Get_Set_.
    apply getPreferredLanguage_resolved. exact Hdef. }
  apply (ServeHTTP_noop g w r1 HeaderStrategy).
  - unfold spec_skip. rewrite Hres. exact Hskip.
  - exact Hsel.
  - unfold spec_noop. simpl. unfold HeaderStrategy_GetLanguage, r1. simpl.
    rewrite Get_Set_. fold r1. rewrite Hres, String.eqb_refl.
    apply spec_skip_false in Hskip as [Hne _]. fold lang in Hne.
    apply String.eqb_neq in Hne. now rewrite Hne.
Qed.

Lemma header_strategy_idempotent_witness :
  Get (Hdr (request (@ServeHTTP_twice rawNetURL unit (plugin (readmeConfig "header" false))
                       [] (requestOf "it, fr-CA;q=0.8, de;q=0.5" "/about"))))
      "Accept-Language"
  = Get (Hdr (request (@ServeHTTP rawNetURL unit (plugin (readmeConfig "header" false))
                         [] (requestOf "it, fr-CA;q=0.8, de;q=0.5" "/about"))))
        "Accept-Language"
  /\ Get (Hdr (request (@ServeHTTP rawNetURL unit (plugin (readmeConfig "header" false))
                         [] (requestOf "it, fr-CA;q=0.8, de;q=0.5" "/about"))))
         "Accept-Language" = "fr-CA".
Proof.
  split; [| vm_compute; reflexivity].
  apply (@header_strategy_idempotent rawNetURL unit (plugin (readmeConfig "header" false)));
    reflexivity.
Defined.

(** ** The path strategy *)

Lemma cut_hd_upToSlash k s :
  String.length s <= k -> hd "" (cut "/" k s) = upToSlash s.
Proof.
  revert k. induction s as [|c s IH]; intros k Hk; simpl; [reflexivity |].
  destruct k; [simpl in Hk; lia |].
  destruct (Ascii.eqb c "/"); [reflexivity |].
  assert (Hk' : String.length s <= S k) by (simpl in Hk; lia).
  specialize (IH (S k) Hk').
  destruct (cut "/" (S k) s) as [|piece pieces]; simpl in *; now rewrite IH.
Qed.

(** [segments[1]] of the split path is the first path segment. *)
Lemma cut_second_firstSegment k s :
  String.length s <= k ->
  match cut "/" k s with
  | _ :: segment1 :: _ => Some segment1
  | _ => None
  end = spec_firstSegment s.
Proof.
  revert k. induction s as [|c s IH]; intros k Hk; simpl; [reflexivity |].
  destruct k; [simpl in Hk; lia |].
  assert (Hk' : String.length s <= k) by (simpl in Hk; lia).
  destruct (Ascii.eqb c "/").
  - rewrite <- (cut_hd_upToSlash k s Hk').
    destruct (cut "/" k s) as [|piece pieces] eqn:E; [| reflexivity].
    now apply cut_nonempty in E.
  - rewrite <- (IH (S k)) by lia.
    destruct (cut "/" (S k) s) as [|piece [|piece2 pieces]]; reflexivity.
Qed.

(** What the path strategy reads is empty or two bytes long. *)
Lemma PathStrategy_GetLanguage_length r :
  PathStrategy_GetLanguage r = "" \/ String.length (PathStrategy_GetLanguage r) = 2.
Proof.
  unfold PathStrategy_GetLanguage.
  destruct (Split _ _) as [|s0 [|s1 l]]; auto.
  destruct (Nat.eqb_spec (String.length s1) 2); auto.
Qed.

(** C8: the path strategy reads the first path segment when there is
    one and it is exactly 2 bytes long, and the empty string otherwise;
    it writes "/" + t over the path "/" and puts "/" + t in front of
    any other path.  "/about" with "en" becomes "/en/about". *)
Theorem path_strategy_read_write :
  (forall r,
      PathStrategy_GetLanguage r
      = match spec_firstSegment (Path (Url r)) with
        | Some segment => if Nat.eqb (String.length segment) 2 then segment else ""
        | None => ""
        end)
  /\ (forall w r t,
         Path (Url r) = "/" ->
         Path (Url (snd (PathStrategy_SetLanguage w r t))) = concat "/" t)
  /\ (forall w r t,
         Path (Url r) <> "/" ->
         Path (Url (snd (PathStrategy_SetLanguage w r t)))
         = concat "/" (concat t (Path (Url r))))
  /\ Path (Url (snd (PathStrategy_SetLanguage [] (requestOf "en" "/") "en"))) = "/en"
  /\ Path (Url (snd (PathStrategy_SetLanguage [] (requestOf "en" "/about") "en")))
     = "/en/about"
  /\ PathStrategy_GetLanguage (requestOf "en" "/en/about") = "en"
  /\ PathStrategy_GetLanguage (requestOf "en" "/about") = "".
Proof.
  split; [| split; [| split]].
  - intros r. unfold PathStrategy_GetLanguage, Split.
    rewrite <- (cut_second_firstSegment (String.length (Path (Url r)))) by lia.
    destruct (cut _ _ _) as [|s0 [|s1 l]]; reflexivity.
  - intros w r t Hroot. unfold PathStrategy_SetLanguage. now rewrite Hroot.
  - intros w r t Hother. unfold PathStrategy_SetLanguage.
    now destruct (String.eqb_spec (Path (Url r)) "/").
  - repeat split; reflexivity.
Qed.

Lemma path_strategy_read_write_witness :
  Path (Url (snd (PathStrategy_SetLanguage [] (requestOf "de" "/") "de"))) = "/de"
  /\ Path (Url (snd (PathStrategy_SetLanguage [] (requestOf "de" "/a/b") "de"))) = "/de/a/b"
  /\ PathStrategy_GetLanguage (requestOf "de" "/fr-CA/about") = "".
Proof.
  destruct path_strategy_read_write as (Hread & Hroot & Hother & _).
  split; [| split].
  - apply (Hroot [] (requestOf "de" "/") "de"). reflexivity.
  - apply (Hother [] (requestOf "de" "/a/b") "de"). discriminate.
  - rewrite Hread. reflexivity.
Defined.

(** C9: under the path strategy, a resolved tag whose length is not 2
    bytes is never what the strategy reads from a request, so each run
    of the handler puts the tag in front of the path again: after two
    runs the path starts with the tag twice.  With the tag "fr-CA",
    "/about" becomes "/fr-CA/about" and then "/fr-CA/fr-CA/about". *)
Theorem path_strategy_prepends_twice :
  (forall `{NetURL} {Handler : Type} (g : LangRedirect Handler)
          (w : ResponseWriter) (r : Request),
      LanguageStrategy (config g) = StrategyPath ->
      spec_skip g r = false ->
      String.length (resolvedLanguage g r) <> 2 ->
      (forall r', PathStrategy_GetLanguage r' <> resolvedLanguage g r)
      /\ Path (Url (request (ServeHTTP g w r)))
         = (if Path (Url r) =? "/" then concat "/" (resolvedLanguage g r)
            else concat "/" (concat (resolvedLanguage g r) (Path (Url r))))
      /\ Path (Url (request (ServeHTTP_twice g w r)))
         = concat "/" (concat (resolvedLanguage g r)
                         (Path (Url (request (ServeHTTP g w r))))))
  /\ Path (Url (request (@ServeHTTP rawNetURL unit (plugin (readmeConfig "path" false)) []
                           (requestOf "fr-CA" "/about"))))
     = "/fr-CA/about"
  /\ Path (Url (request (@ServeHTTP_twice rawNetURL unit (plugin (readmeConfig "path" false))
                           [] (requestOf "fr-CA" "/about"))))
     = "/fr-CA/fr-CA/about".
Proof.
  split; [| split; vm_compute; reflexivity].
  intros lib Handler g w r Hsel Hskip Hlen.
  apply getStrategy_path in Hsel.
  set (lang := resolvedLanguage g r) in *.
  assert (Hnonempty : lang <> "") by (now apply spec_skip_false in Hskip as [? _]).
  assert (Hread : forall r', PathStrategy_GetLanguage r' <> lang).
  { intros r' E. destruct (PathStrategy_GetLanguage_length r') as [H0 | H2]; congruence. }
  assert (Hnoop : forall r', resolvedLanguage g r' = lang -> spec_noop PathStrategy g r' = false).
  { intros r' Hres. unfold spec_noop. simpl. rewrite Hres.
    apply andb_false_iff. right. apply String.eqb_neq. apply Hread. }
  split; [exact Hread |].
  rewrite (ServeHTTP_write g w r _ Hskip Hsel (Hnoop r eq_refl)) at 1.
  unfold ServeHTTP_twice.
  rewrite (ServeHTTP_write g w r _ Hskip Hsel (Hnoop r eq_refl)). fold lang.
  set (r1 := snd (SetLanguage PathStrategy w r lang)).
  assert (Hr1 : Hdr r1 = Hdr r
                /\ Path (Url r1)
                   = (if Path (Url r) =? "/" then concat "/" lang
                      else concat "/" (concat lang (Path (Url r))))).
  { unfold r1. simpl. unfold PathStrategy_SetLanguage.
    destruct (Path (Url r) =? "/"); simpl; auto. }
  destruct Hr1 as [Hh Hp].
  assert (Hres1 : resolvedLanguage g r1 = lang).
  { unfold resolvedLanguage. rewrite Hh. reflexivity. }
  assert (Hskip1 : spec_skip g r1 = false).
  { unfold spec_skip. rewrite Hres1. exact Hskip. }
  assert (Hone : request (if RedirectAfterHandling (config g)
                          then Return (http_Redirect w r1 (URL_String (Url r1)) StatusFound) r1
                          else Forward (next g) w r1) = r1)
    by (destruct (RedirectAfterHandling (config g)); reflexivity).
  simpl. rewrite Hone. split; [exact Hp |].
  rewrite (ServeHTTP_write g _ r1 _ Hskip1 Hsel (Hnoop r1 Hres1)). rewrite Hres1.
  set (r2 := snd (SetLanguage PathStrategy _ r1 lang)).
  assert (Hr2 : Path (Url r2) = concat "/" (concat lang (Path (Url r1)))).
  { unfold r2. simpl. unfold PathStrategy_SetLanguage.
    destruct (String.eqb_spec (Path (Url r1)) "/") as [Eroot | _]; [| reflexivity].
    exfalso. rewrite Hp in Eroot.
    destruct (Path (Url r) =? "/"), lang; simpl in Eroot; congruence. }
  simpl. destruct (RedirectAfterHandling (config g)); simpl; exact Hr2.
Qed.

Lemma path_strategy_prepends_twice_witness :
  Path (Url (request (@ServeHTTP_twice rawNetURL unit (plugin (readmeConfig "path" true))
                        [] (requestOf "it, fr-CA" "/"))))
  = concat "/" (concat "fr-CA" "/fr-CA").
Proof.
  destruct path_strategy_prepends_twice as (Hgen & _).
  destruct (Hgen rawNetURL unit (plugin (readmeConfig "path" true)) []
              (requestOf "it, fr-CA" "/")) as (_ & _ & Htwice).
  - reflexivity.
  - reflexivity.
  - vm_compute. discriminate.
  - exact Htwice.
Defined.

(** ** The response writer *)

(** C10: no [SetLanguage] method touches the response writer; each
    changes its own part of the request only (the [Accept-Language]
    header, the path, the raw query).  [ServeHTTP] hands the writer to
    the next handler as it received it, and when it returns without
    calling the next handler the one thing written is the redirect (the
    redirect flag being on) or the internal error (the strategy being
    invalid). *)
Theorem response_written_only_by_engine :
  (forall `{NetURL} (strategy : Strategy) w r language,
      fst (SetLanguage strategy w r language) = w)
  /\ (forall w r language,
         Url (snd (HeaderStrategy_SetLanguage w r language)) = Url r
         /\ delete "Accept-Language" (Hdr (snd (HeaderStrategy_SetLanguage w r language)))
            = delete "Accept-Language" (Hdr r))
  /\ (forall w r language,
         Hdr (snd (PathStrategy_SetLanguage w r language)) = Hdr r
         /\ RawQuery (Url (snd (PathStrategy_SetLanguage w r language))) = RawQuery (Url r))
  /\ (forall `{NetURL} languageParam w r language,
         Hdr (snd (QueryStrategy_SetLanguage languageParam w r language)) = Hdr r
         /\ Path (Url (snd (QueryStrategy_SetLanguage languageParam w r language)))
            = Path (Url r))
  /\ (forall `{NetURL} {Handler : Type} (g : LangRedirect Handler) w r,
         match ServeHTTP g w r with
         | Forward _ w' _ => w' = w
         | Return w' r' =>
             (RedirectAfterHandling (config g) = true
              /\ w' = (w ++ [HttpRedirect (URL_String (Url r')) StatusFound])%list)
             \/ ((exists msg, getStrategy g = Err msg)
                 /\ w' = (w ++ [HttpError "Internal Server Error"
                                  StatusInternalServerError])%list)
         end).
Proof.
  split; [| split; [| split; [| split]]].
  - intros lib strategy w r language. apply SetLanguage_writer.
  - intros w r language. simpl. split; [reflexivity |].
    unfold Set_. apply delete_insert_eq.
  - intros w r language. unfold PathStrategy_SetLanguage.
    destruct (_ =? _); simpl; auto.
  - intros lib languageParam w r language. simpl. auto.
  - intros lib Handler g w r.
    destruct (spec_skip g r) eqn:Hskip.
    { now rewrite (ServeHTTP_skip g w r Hskip). }
    destruct (getStrategy g) as [strategy | msg] eqn:Hs.
    2: { rewrite (ServeHTTP_error g w r msg Hskip Hs). right. eauto. }
    destruct (spec_noop strategy g r) eqn:Hnoop.
    { now rewrite (ServeHTTP_noop g w r strategy Hskip Hs Hnoop). }
    rewrite (ServeHTTP_write g w r strategy Hskip Hs Hnoop). simpl.
    destruct (RedirectAfterHandling (config g)); [| reflexivity].
    left. auto.
Qed.


(** * Further properties of the code *)

(** ** Splitting and trimming *)

Module GoStringsMore.

(** Fuel beyond the length of the string changes nothing. *)
Lemma cut_fuel sep s k k' :
  String.length s <= k -> String.length s <= k' -> cut sep k s = cut sep k' s.
Proof.
  revert k k'. induction s as [|c s IH]; intros k k' Hk Hk'; simpl; [reflexivity |].
  destruct k; [simpl in Hk; lia |]. destruct k'; [simpl in Hk'; lia |].
  simpl in Hk, Hk'.
  destruct (Ascii.eqb c sep).
  - f_equal. apply IH; lia.
  - rewrite (IH (S k) (S k')) by lia. reflexivity.
Qed.

(** Cutting [a + sep + b] is cutting [a], then cutting [b]. *)
Lemma cut_concat sep a b k :
  String.length (concat a (String sep b)) <= k ->
  cut sep k (concat a (String sep b)) = (cut sep k a ++ cut sep k b)%list.
Proof.
  revert k. induction a as [|c a IH]; intros k Hk; simpl in *.
  - destruct k; [lia |]. rewrite Ascii.eqb_refl. simpl.
    f_equal. apply cut_fuel; lia.
  - destruct k; [lia |].
    destruct (Ascii.eqb c sep).
    + rewrite IH by lia. simpl. f_equal. f_equal. apply cut_fuel.
      * rewrite length_concat in Hk. simpl in Hk. lia.
      * rewrite length_concat in Hk. simpl in Hk. lia.
    + rewrite (IH (S k)) by lia.
      destruct (cut sep (S k) a) as [|piece pieces] eqn:E; [| reflexivity].
      now apply cut_nonempty in E.
Qed.

Lemma Split_concat sep a b :
  Split (concat a (String sep b)) sep = (Split a sep ++ Split b sep)%list.
Proof.
  unfold Split. rewrite cut_concat by lia.
  f_equal; apply cut_fuel; rewrite ?length_concat; simpl; lia.
Qed.

(** One piece more than there are separators. *)
Lemma length_cut sep s k :
  String.length s <= k -> List.length (cut sep k s) = S (CountByte s sep).
Proof.
  revert k. induction s as [|c s IH]; intros k Hk; simpl in *; [reflexivity |].
  destruct k; [lia |].
  destruct (Ascii.eqb c sep).
  - simpl. f_equal. apply IH. lia.
  - specialize (IH (S k) ltac:(lia)).
    destruct (cut sep (S k) s) as [|piece pieces]; simpl in *; [discriminate | exact IH].
Qed.

(** The first cut of [a + sep + b] with [a] free of [sep] is [a]. *)
Lemma cut_first sep a b k :
  ContainsByte a sep = false ->
  cut sep (S k) (concat a (String sep b)) = a :: cut sep k b.
Proof.
  induction a as [|c a IH]; simpl.
  - intros _. now rewrite Ascii.eqb_refl.
  - destruct (Ascii.eqb c sep); [discriminate |]. intros Ha.
    now rewrite (IH Ha).
Qed.

Lemma cut_zero sep s : cut sep 0 s = [s].
Proof. destruct s; reflexivity. Qed.

(** A prefix free of [sep] stays in front of the first piece. *)
Lemma cut_prefix sep t s k :
  ContainsByte t sep = false ->
  cut sep k (concat t s)
  = concat t (hd "" (cut sep k s)) :: tl (cut sep k s).
Proof.
  induction t as [|c t IH]; simpl.
  - intros _. destruct (cut sep k s) as [|p ps] eqn:E; [| reflexivity].
    now apply cut_nonempty in E.
  - destruct (Ascii.eqb c sep) eqn:Ec; [discriminate |]. intros Ht.
    destruct k.
    + now rewrite cut_zero.
    + rewrite (IH Ht). reflexivity.
Qed.

Lemma skip_concat t s : skip (String.length t) (concat t s) = s.
Proof. induction t as [|c t IH]; simpl; [reflexivity | exact IH]. Qed.

Lemma leadingRune_empty runes :
  Forall (fun t => t <> "") runes -> leadingRune runes "" = None.
Proof.
  intros Hne. unfold leadingRune.
  destruct (find (fun t => HasPrefix "" t) runes) as [t|] eqn:E; [| reflexivity].
  apply find_some in E as [Hin Hp].
  apply (proj1 (List.Forall_forall _ _) Hne) in Hin.
  destruct t; [congruence | discriminate].
Qed.

(** Fuel beyond the length of the string changes nothing. *)
Lemma trimLeftRunes_fuel runes n m s :
  Forall (fun t => t <> "") runes ->
  String.length s <= n -> String.length s <= m ->
  trimLeftRunes runes n s = trimLeftRunes runes m s.
Proof.
  intros Hne. revert m s. induction n as [|n IH]; intros m s Hn Hm.
  - destruct s; [| simpl in Hn; lia].
    destruct m; simpl; [reflexivity |]. now rewrite leadingRune_empty.
  - destruct m.
    + destruct s; [| simpl in Hm; lia]. simpl. now rewrite leadingRune_empty.
    + simpl. destruct (leadingRune runes s) as [t|] eqn:E; [| reflexivity].
      apply leadingRune_Some in E as [Hin Hp].
      apply (proj1 (List.Forall_forall _ _) Hne) in Hin.
      apply HasPrefix_length in Hp.
      apply IH; rewrite length_skip; destruct t; simpl in *; try congruence; lia.
Qed.

(** A string that begins with a white-space rune begins with that one
    only. *)
Lemma leadingRune_spaceRune t s :
  In t spaceRunes -> leadingRune spaceRunes (concat t s) = Some t.
Proof.
  unfold spaceRunes. simpl. intros Hin.
  repeat (destruct Hin as [<- | Hin]; [vm_compute; reflexivity |]).
  contradiction.
Qed.

Lemma spaceRune_no_separator t :
  In t spaceRunes -> ContainsByte t "," = false /\ ContainsByte t ";" = false.
Proof.
  unfold spaceRunes. simpl. intros Hin.
  repeat (destruct Hin as [<- | Hin]; [split; vm_compute; reflexivity |]).
  contradiction.
Qed.

Lemma TrimLeftSpace_spaceRune t s :
  In t spaceRunes -> TrimLeftSpace (concat t s) = TrimLeftSpace s.
Proof.
  intros Hin. unfold TrimLeftSpace.
  pose proof (proj1 (List.Forall_forall _ _) spaceRunes_nonempty t Hin) as Hne.
  pose proof (length_concat t s) as Hlen.
  destruct (String.length (concat t s)) as [|n] eqn:En.
  { destruct t; [congruence | simpl in Hlen; lia]. }
  cbn [trimLeftRunes]. rewrite (leadingRune_spaceRune t s Hin), skip_concat.
  apply trimLeftRunes_fuel; [exact spaceRunes_nonempty | | lia].
  destruct t; [congruence | simpl in Hlen; lia].
Qed.

Lemma TrimSpace_spaceRune t s : In t spaceRunes -> TrimSpace (concat t s) = TrimSpace s.
Proof. intros Hin. unfold TrimSpace. now rewrite TrimLeftSpace_spaceRune. Qed.

End GoStringsMore.

Import GoStringsMore.

(** ** More on the parser and the matcher *)

Module NegotiationMore.

(** What [parseAcceptLanguage] makes of one part. *)
Lemma parseAcceptLanguage_parts h :
  parseAcceptLanguage h
  = map (fun part => TrimSpace (hd "" (cut ";" 1 part))) (Split h ",").
Proof. reflexivity. Qed.

Lemma parseAcceptLanguage_concat h1 h2 :
  parseAcceptLanguage (concat h1 (String "," h2))
  = (parseAcceptLanguage h1 ++ parseAcceptLanguage h2)%list.
Proof. rewrite !parseAcceptLanguage_parts, Split_concat. apply map_app. Qed.

Lemma matchSupported_ext lang s1 s2 :
  (forall x, In x s1 <-> In x s2) -> matchSupported lang s1 = matchSupported lang s2.
Proof.
  intros Hext. destruct (in_dec string_dec lang s1) as [Hin | Hnot].
  - rewrite (matchSupported_In _ _ Hin). symmetry. apply matchSupported_In. now apply Hext.
  - rewrite (matchSupported_None _ _ Hnot). symmetry. apply matchSupported_None.
    intros Hin. apply Hnot. now apply Hext.
Qed.

Lemma matchLanguages_ext languages s1 s2 :
  (forall x, In x s1 <-> In x s2) ->
  matchLanguages languages s1 = matchLanguages languages s2.
Proof.
  intros Hext. induction languages as [|lang rest IH]; simpl; [reflexivity |].
  now rewrite (matchSupported_ext lang s1 s2 Hext), IH.
Qed.

Lemma matchLanguages_app l1 l2 supported :
  matchLanguages (l1 ++ l2) supported
  = match matchLanguages l1 supported with
    | Some l => Some l
    | None => matchLanguages l2 supported
    end.
Proof.
  induction l1 as [|lang rest IH]; simpl; [reflexivity |].
  destruct (matchSupported lang supported); [reflexivity | exact IH].
Qed.

Lemma matchLanguages_In languages supported c :
  In c languages -> In c supported -> matchLanguages languages supported <> None.
Proof.
  induction languages as [|lang rest IH]; simpl; [tauto |].
  intros [-> | Hin] Hsup.
  - now rewrite (matchSupported_In _ _ Hsup).
  - destruct (matchSupported lang supported); [discriminate | now apply IH].
Qed.

(** A supported candidate resolves to itself. *)
Lemma getPreferredLanguage_candidate {Handler} (g : LangRedirect Handler) h c :
  In c (parseAcceptLanguage h) -> In c (Languages (config g)) ->
  getPreferredLanguage g c = c.
Proof.
  intros Hc Hsup. apply parseAcceptLanguage_candidate in Hc as (H1 & H2 & H3).
  unfold getPreferredLanguage. rewrite (parseAcceptLanguage_bare c H1 H2 H3). simpl.
  now rewrite matchSupported_In.
Qed.

(** From the second application on, resolving gives the same tag. *)
Lemma getPreferredLanguage_stable {Handler} (g : LangRedirect Handler) h :
  getPreferredLanguage g (getPreferredLanguage g (getPreferredLanguage g h))
  = getPreferredLanguage g (getPreferredLanguage g h).
Proof.
  destruct (getPreferredLanguage_cases g h) as [-> | [H1 H2]].
  - destruct (getPreferredLanguage_cases g (DefaultLanguage (config g))) as [E | [H1 H2]].
    + now rewrite !E.
    + now apply (getPreferredLanguage_candidate g (DefaultLanguage (config g))).
  - now rewrite !(getPreferredLanguage_candidate g h _ H1 H2).
Qed.

End NegotiationMore.

Import NegotiationMore.

(** ** More on construction *)

(** The three checks of [New], taken together. *)
Lemma New_Ok_iff {Handler : Type} (nxt : Handler) (cfg : Config)
    (g : LangRedirect Handler) :
  New nxt cfg = Ok g
  <-> (g = mkLangRedirect Handler nxt cfg
       /\ Languages cfg <> []
       /\ DefaultLanguage cfg <> ""
       /\ ~ (LanguageStrategy cfg = StrategyQuery /\ LanguageParam cfg = "")).
Proof.
  unfold New.
  destruct (Languages cfg) as [|l ls]; simpl.
  { split; [discriminate | intros (_ & H & _); congruence]. }
  destruct (String.eqb_spec (DefaultLanguage cfg) "") as [Hd | Hd].
  { split; [discriminate | intros (_ & _ & H & _); congruence]. }
  destruct (String.eqb_spec (LanguageStrategy cfg) StrategyQuery) as [Hq | Hq];
    destruct (String.eqb_spec (LanguageParam cfg) "") as [Hp | Hp]; simpl.
  - split; [discriminate | intros (_ & _ & _ & H); tauto].
  - split; [intros [= <-] | intros (-> & _)]; repeat split; try discriminate; tauto.
  - split; [intros [= <-] | intros (-> & _)]; repeat split; try discriminate; tauto.
  - split; [intros [= <-] | intros (-> & _)]; repeat split; try discriminate; tauto.
Qed.

(** X1: [New] succeeds exactly when the language list is non-empty, the
    fallback is non-empty and the query strategy is not chosen with an
    empty parameter name; the instance then holds the next handler and
    the configuration it was given. *)
Theorem New_succeeds_iff {Handler : Type} (nxt : Handler) (cfg : Config)
    (g : LangRedirect Handler) :
  New nxt cfg = Ok g
  <-> (g = mkLangRedirect Handler nxt cfg
       /\ Languages cfg <> []
       /\ DefaultLanguage cfg <> ""
       /\ ~ (LanguageStrategy cfg = StrategyQuery /\ LanguageParam cfg = "")).
Proof. apply New_Ok_iff. Qed.

(** X2: [New] reports the first check that fails, in the order language
    list, fallback, query parameter name.  The configuration that
    [CreateConfig] returns is refused for its empty language list. *)
Theorem New_reports_first_failure {Handler : Type} (nxt : Handler) (cfg : Config) :
  (Languages cfg = [] -> New nxt cfg = Err "languages are required")
  /\ (Languages cfg <> [] -> DefaultLanguage cfg = "" ->
      New nxt cfg = Err "DefaultLanguage is required")
  /\ (Languages cfg <> [] -> DefaultLanguage cfg <> "" ->
      LanguageStrategy cfg = StrategyQuery -> LanguageParam cfg = "" ->
      New nxt cfg = Err "languageParam is required when LanguageStrategy is 'query'").
Proof.
  unfold New. repeat split.
  - now intros ->.
  - intros Hl Hd. destruct (Languages cfg); [congruence |]. simpl. now rewrite Hd.
  - intros Hl Hd Hq Hp. destruct (Languages cfg); [congruence |]. simpl.
    destruct (String.eqb_spec (DefaultLanguage cfg) ""); [congruence |].
    now rewrite Hq, Hp.
Qed.

Lemma New_reports_first_failure_witness :
  New tt CreateConfig = Err "languages are required"
  /\ New tt (mkConfig ["en"] "" false "query" "" false) = Err "DefaultLanguage is required"
  /\ New tt (mkConfig ["en"] "en" false "query" "" false)
     = Err "languageParam is required when LanguageStrategy is 'query'".
Proof.
  split; [| split].
  - apply (proj1 (New_reports_first_failure tt CreateConfig)). reflexivity.
  - apply (proj1 (proj2 (New_reports_first_failure tt
                           (mkConfig ["en"] "" false "query" "" false))));
      [discriminate | reflexivity].
  - apply (proj2 (proj2 (New_reports_first_failure tt
                           (mkConfig ["en"] "en" false "query" "" false))));
      try discriminate; reflexivity.
Defined.

(** X3: for an instance that [New] built, [getStrategy] succeeds
    whenever the selector is one of the three recognized values, and a
    query strategy it returns carries the configured parameter name,
    which is not empty. *)
Theorem New_instance_strategy {Handler : Type} (nxt : Handler) (cfg : Config)
    (g : LangRedirect Handler) :
  New nxt cfg = Ok g ->
  (recognized (LanguageStrategy cfg) -> exists strategy, getStrategy g = Ok strategy)
  /\ (forall languageParam,
         getStrategy g = Ok (QueryStrategy languageParam) ->
         languageParam = LanguageParam cfg /\ languageParam <> "").
Proof.
  intros Hnew. apply New_Ok_iff in Hnew as (-> & _ & _ & Hq).
  unfold getStrategy, recognized. simpl. split.
  - intros [-> | [-> | ->]]; simpl; eauto.
  - intros p.
    destruct (String.eqb_spec (LanguageStrategy cfg) StrategyHeader); [discriminate |].
    destruct (String.eqb_spec (LanguageStrategy cfg) StrategyPath); [discriminate |].
    destruct (String.eqb_spec (LanguageStrategy cfg) StrategyQuery) as [Hsel |];
      [| discriminate].
    intros [= <-]. split; [reflexivity |]. intros Hp. apply Hq. auto.
Qed.

Lemma New_instance_strategy_witness :
  (exists strategy,
      getStrategy (plugin (mkConfig ["en"] "en" false "query" "lg" true)) = Ok strategy)
  /\ "lg" = LanguageParam (mkConfig ["en"] "en" false "query" "lg" true)
  /\ "lg" <> "".
Proof.
  destruct (New_instance_strategy tt (mkConfig ["en"] "en" false "query" "lg" true)
              (plugin (mkConfig ["en"] "en" false "query" "lg" true)) eq_refl)
    as [Hrec Hquery].
  split.
  - apply Hrec. unfold recognized. auto.
  - apply Hquery. reflexivity.
Defined.

(** X4: the parser yields one candidate per comma-separated part, one
    more than the header has commas; it never yields the empty list, and
    for the empty header it yields the one empty candidate. *)
Theorem parser_one_candidate_per_part (h : string) :
  List.length (parseAcceptLanguage h) = S (CountByte h ",")
  /\ parseAcceptLanguage h <> []
  /\ parseAcceptLanguage "" = [""].
Proof.
  assert (Hlen : List.length (parseAcceptLanguage h) = S (CountByte h ",")).
  { rewrite parseAcceptLanguage_parts, length_map. apply length_cut. lia. }
  split; [exact Hlen |]. split; [| reflexivity].
  intros E. rewrite E in Hlen. discriminate.
Qed.

(** X5: every candidate the parser yields is a bare tag (it holds no
    [','] and no [';'] and trimming leaves it as it is), and parsing a
    candidate again yields that candidate alone. *)
Theorem parser_candidates_are_bare (h c : string) :
  In c (parseAcceptLanguage h) ->
  ContainsByte c "," = false
  /\ ContainsByte c ";" = false
  /\ TrimSpace c = c
  /\ parseAcceptLanguage c = [c].
Proof.
  intros Hin. apply parseAcceptLanguage_candidate in Hin as (H1 & H2 & H3).
  repeat split; try assumption. now apply parseAcceptLanguage_bare.
Qed.

Lemma parser_candidates_are_bare_witness :
  ContainsByte "fr-CA" "," = false
  /\ ContainsByte "fr-CA" ";" = false
  /\ TrimSpace "fr-CA" = "fr-CA"
  /\ parseAcceptLanguage "fr-CA" = ["fr-CA"].
Proof.
  apply (parser_candidates_are_bare "it;q=0.3 ,	fr-CA ; q=0.8,de").
  vm_compute. auto.
Defined.

(** X6: what follows the first [';'] of a part (the quality value) does
    not matter: the part parses like its text before the [';']. *)
Theorem parser_ignores_quality (part q : string) :
  ContainsByte part "," = false ->
  ContainsByte part ";" = false ->
  ContainsByte q "," = false ->
  parseAcceptLanguage (concat part (String ";" q)) = parseAcceptLanguage part.
Proof.
  intros Hc Hs Hq. rewrite !parseAcceptLanguage_parts. unfold Split.
  rewrite (cut_no_sep "," _ part Hc).
  rewrite (cut_no_sep "," _ (concat part (String ";" q))).
  - simpl map. now rewrite (cut_first ";" part q 0 Hs), (cut_no_sep ";" 1 part Hs).
  - rewrite ContainsByte_concat, Hc. simpl. exact Hq.
Qed.

Lemma parser_ignores_quality_witness :
  parseAcceptLanguage (concat " fr-CA" (String ";" "q=0.8;x")) = parseAcceptLanguage " fr-CA"
  /\ parseAcceptLanguage " fr-CA" = ["fr-CA"].
Proof.
  split; [| vm_compute; reflexivity].
  apply (parser_ignores_quality " fr-CA" "q=0.8;x"); reflexivity.
Defined.

(** X7: the parser treats the parts of a header independently: the
    candidates of [h1,h2] are those of [h1] followed by those of
    [h2]. *)
Theorem parser_splits_at_commas (h1 h2 : string) :
  parseAcceptLanguage (concat h1 (String "," h2))
  = (parseAcceptLanguage h1 ++ parseAcceptLanguage h2)%list.
Proof. apply parseAcceptLanguage_concat. Qed.

(** X8: white space in front of a header, or right after one of its
    commas, does not change the candidates; this holds for every rune
    that [unicode.IsSpace] accepts. *)
Theorem parser_ignores_leading_space (t h : string) :
  In t spaceRunes ->
  parseAcceptLanguage (concat t h) = parseAcceptLanguage h
  /\ (forall h0, parseAcceptLanguage (concat h0 (String "," (concat t h)))
                 = parseAcceptLanguage (concat h0 (String "," h))).
Proof.
  intros Hin.
  assert (Hfront : forall h', parseAcceptLanguage (concat t h') = parseAcceptLanguage h').
  { intros h'. destruct (spaceRune_no_separator t Hin) as [Hc Hs].
    rewrite !parseAcceptLanguage_parts. unfold Split.
    rewrite (cut_prefix "," t h' _ Hc).
    rewrite (cut_fuel "," h' (String.length (concat t h')) (String.length h'))
      by (rewrite ?length_concat; lia).
    destruct (cut "," (String.length h') h') as [|p ps] eqn:E.
    { now apply cut_nonempty in E. }
    simpl. f_equal.
    rewrite (cut_prefix ";" t p 1 Hs). simpl. apply (TrimSpace_spaceRune _ _ Hin). }
  split; [apply Hfront |].
  intros h0. now rewrite !parseAcceptLanguage_concat, Hfront.
Qed.

Lemma parser_ignores_leading_space_witness :
  parseAcceptLanguage (concat " " "de;q=0.5") = parseAcceptLanguage "de;q=0.5"
  /\ parseAcceptLanguage (concat "en" (String "," (concat " " "de;q=0.5")))
     = parseAcceptLanguage (concat "en" (String "," "de;q=0.5")).
Proof.
  destruct (parser_ignores_leading_space " " "de;q=0.5") as [Hfront Hafter].
  - unfold spaceRunes. simpl. do 5 right. left. reflexivity.
  - split; [exact Hfront | exact (Hafter "en")].
Defined.

(** X9: the resolved language is the fallback or a supported tag that is
    among the header's candidates; nothing else is ever returned. *)
Theorem resolved_is_fallback_or_supported {Handler : Type} (g : LangRedirect Handler)
    (h : string) :
  getPreferredLanguage g h = DefaultLanguage (config g)
  \/ (In (getPreferredLanguage g h) (Languages (config g))
      /\ In (getPreferredLanguage g h) (parseAcceptLanguage h)).
Proof. destruct (getPreferredLanguage_cases g h) as [E | [H1 H2]]; auto. Qed.

(** X10: the supported list counts as a set: two instances with the same
    fallback whose lists have the same members, in whatever order and
    with whatever repetitions, resolve every header alike. *)
Theorem resolved_independent_of_supported_order {Handler : Type}
    (g g' : LangRedirect Handler) (h : string) :
  (forall x, In x (Languages (config g)) <-> In x (Languages (config g'))) ->
  DefaultLanguage (config g) = DefaultLanguage (config g') ->
  getPreferredLanguage g h = getPreferredLanguage g' h.
Proof.
  intros Hext Hdef. unfold getPreferredLanguage.
  now rewrite (matchLanguages_ext _ _ _ Hext), Hdef.
Qed.

Lemma resolved_independent_of_supported_order_witness :
  getPreferredLanguage (plugin (readmeConfig "header" false)) "it, de, fr-CA"
  = getPreferredLanguage (plugin (mkConfig ["de"; "en"; "de"; "fr-CA"] "en" true
                                    "path" "lang" true)) "it, de, fr-CA".
Proof.
  apply (@resolved_independent_of_supported_order unit); [| reflexivity].
  simpl. intros x. split; intros H; tauto.
Defined.

(** X11: earlier parts of the header win: if a candidate of [h1] is
    supported, [h1,h2] resolves as [h1] does; if none is, it resolves as
    [h2] does. *)
Theorem resolved_earlier_parts_win {Handler : Type} (g : LangRedirect Handler)
    (h1 h2 : string) :
  ((exists c, In c (parseAcceptLanguage h1) /\ In c (Languages (config g))) ->
   getPreferredLanguage g (concat h1 (String "," h2)) = getPreferredLanguage g h1)
  /\ ((forall c, In c (parseAcceptLanguage h1) -> ~ In c (Languages (config g))) ->
      getPreferredLanguage g (concat h1 (String "," h2)) = getPreferredLanguage g h2).
Proof.
  unfold getPreferredLanguage.
  rewrite parseAcceptLanguage_concat, matchLanguages_app. split.
  - intros (c & Hc & Hsup).
    pose proof (matchLanguages_In _ _ c Hc Hsup) as Hsome.
    destruct (matchLanguages (parseAcceptLanguage h1) _); [reflexivity | congruence].
  - intros Hnone. now rewrite (matchLanguages_None _ _ Hnone).
Qed.

Lemma resolved_earlier_parts_win_witness :
  getPreferredLanguage (plugin (readmeConfig "header" false))
    (concat "it, de;q=0.9" (String "," "fr-CA"))
  = getPreferredLanguage (plugin (readmeConfig "header" false)) "it, de;q=0.9"
  /\ getPreferredLanguage (plugin (readmeConfig "header" false))
       (concat "it, pt" (String "," "fr-CA"))
     = getPreferredLanguage (plugin (readmeConfig "header" false)) "fr-CA".
Proof.
  split.
  - apply (proj1 (@resolved_earlier_parts_win unit (plugin (readmeConfig "header" false))
                    "it, de;q=0.9" "fr-CA")).
    exists "de". split; vm_compute; auto.
  - apply (proj2 (@resolved_earlier_parts_win unit (plugin (readmeConfig "header" false))
                    "it, pt" "fr-CA")).
    intros c Hc. vm_compute in Hc. destruct Hc as [<- | [<- | []]];
      simpl; intros [E | [E | [E | []]]]; discriminate E.
Defined.

(** ** More on the request handler *)

Module EngineMore.

Section Handler.

Context `{NetURL} {Handler : Type} (g : LangRedirect Handler).

Lemma recognized_getStrategy :
  recognized (LanguageStrategy (config g)) -> exists strategy, getStrategy g = Ok strategy.
Proof.
  unfold recognized, getStrategy. intros [-> | [-> | ->]]; simpl; eauto.
Qed.

(** The request that [ServeHTTP] leaves is the one it got or the one
    the strategy wrote. *)
Lemma request_cases w r :
  (spec_skip g r = true /\ request (ServeHTTP g w r) = r)
  \/ (spec_skip g r = false /\ (exists msg, getStrategy g = Err msg)
      /\ request (ServeHTTP g w r) = r)
  \/ (exists strategy,
         spec_skip g r = false /\ getStrategy g = Ok strategy
         /\ spec_noop strategy g r = true /\ request (ServeHTTP g w r) = r)
  \/ (exists strategy,
         spec_skip g r = false /\ getStrategy g = Ok strategy
         /\ spec_noop strategy g r = false
         /\ request (ServeHTTP g w r)
            = snd (SetLanguage strategy w r (resolvedLanguage g r))).
Proof.
  destruct (spec_skip g r) eqn:Hskip.
  { left. now rewrite (ServeHTTP_skip g w r Hskip). }
  destruct (getStrategy g) as [strategy | msg] eqn:Hs.
  2: { right. left. rewrite (ServeHTTP_error g w r msg Hskip Hs). eauto. }
  destruct (spec_noop strategy g r) eqn:Hnoop.
  { right. right. left. exists strategy.
    now rewrite (ServeHTTP_noop g w r strategy Hskip Hs Hnoop). }
  right. right. right. exists strategy.
  rewrite (ServeHTTP_write g w r strategy Hskip Hs Hnoop). simpl.
  destruct (RedirectAfterHandling (config g)); auto.
Qed.

Lemma spec_noop_true strategy r :
  spec_noop strategy g r = true ->
  GetLanguage strategy r = resolvedLanguage g r.
Proof.
  unfold spec_noop. intros Hn. apply andb_true_iff in Hn as [_ Hn].
  now apply String.eqb_eq.
Qed.

(** If the strategy reads back what it writes, then after a run that
    is not skipped it reads the resolved language from the request. *)
Lemma ServeHTTP_reads_resolved w r strategy :
  getStrategy g = Ok strategy -> spec_skip g r = false ->
  GetLanguage strategy (snd (SetLanguage strategy w r (resolvedLanguage g r)))
  = resolvedLanguage g r ->
  GetLanguage strategy (request (ServeHTTP g w r)) = resolvedLanguage g r.
Proof.
  intros Hs Hskip Hraw.
  destruct (request_cases w r)
    as [[E _] | [(_ & [msg E] & _) | [(s & _ & Hs' & Hn & ->) | (s & _ & Hs' & _ & ->)]]];
    try congruence.
  assert (s = strategy) as -> by congruence. now apply spec_noop_true.
Qed.

(** ... and if the run left the resolved language as it was, a second
    run forwards the request untouched. *)
Lemma ServeHTTP_second_run w w' r strategy :
  getStrategy g = Ok strategy -> spec_skip g r = false ->
  GetLanguage strategy (snd (SetLanguage strategy w r (resolvedLanguage g r)))
  = resolvedLanguage g r ->
  resolvedLanguage g (request (ServeHTTP g w r)) = resolvedLanguage g r ->
  ServeHTTP g w' (request (ServeHTTP g w r))
  = Forward (next g) w' (request (ServeHTTP g w r)).
Proof.
  intros Hs Hskip Hraw Hres.
  pose proof (ServeHTTP_reads_resolved w r strategy Hs Hskip Hraw) as Hread.
  set (r1 := request (ServeHTTP g w r)) in *.
  apply (ServeHTTP_noop g w' r1 strategy).
  - unfold spec_skip. rewrite Hres. exact Hskip.
  - exact Hs.
  - unfold spec_noop. rewrite Hread, Hres, String.eqb_refl.
    apply spec_skip_false in Hskip as [Hne _].
    apply String.eqb_neq in Hne. now rewrite Hne.
Qed.

End Handler.

Lemma getStrategy_query {Handler} (g : LangRedirect Handler) :
  LanguageStrategy (config g) = StrategyQuery ->
  getStrategy g = Ok (QueryStrategy (LanguageParam (config g))).
Proof. unfold getStrategy. now intros ->. Qed.

Lemma PathStrategy_GetLanguage_segment r :
  PathStrategy_GetLanguage r
  = match spec_firstSegment (Path (Url r)) with
    | Some segment => if Nat.eqb (String.length segment) 2 then segment else ""
    | None => ""
    end.
Proof.
  unfold PathStrategy_GetLanguage, Split.
  rewrite <- (cut_second_firstSegment (String.length (Path (Url r)))) by lia.
  destruct (cut _ _ _) as [|s0 [|s1 l]]; reflexivity.
Qed.

Lemma upToSlash_concat lang tail :
  ContainsByte lang "/" = false ->
  tail = "" \/ HasPrefix tail "/" = true ->
  upToSlash (concat lang tail) = lang.
Proof.
  induction lang as [|c lang IH]; simpl.
  - intros _ [-> | Hp]; [reflexivity |].
    destruct tail as [|d tail]; [reflexivity |]. simpl in Hp.
    apply andb_true_iff in Hp as [Hd _]. simpl. now rewrite Hd.
  - destruct (Ascii.eqb c "/"); [discriminate |]. intros Hl Ht. now rewrite IH.
Qed.

(** The path that [PathStrategy.SetLanguage] writes over a rooted (or
    empty) path. *)
Lemma PathStrategy_SetLanguage_path w r language :
  Path (Url r) = "" \/ HasPrefix (Path (Url r)) "/" = true ->
  exists tail,
    (tail = "" \/ HasPrefix tail "/" = true)
    /\ Path (Url (snd (PathStrategy_SetLanguage w r language)))
       = String "/" (concat language tail).
Proof.
  intros Hrooted. unfold PathStrategy_SetLanguage.
  destruct (String.eqb_spec (Path (Url r)) "/") as [E | Hne]; simpl.
  - exists "". split; [auto |]. now rewrite concat_empty_r.
  - exists (Path (Url r)). auto.
Qed.

(** A strategy other than the header strategy leaves the headers. *)
Lemma request_headers_kept `{NetURL} {Handler} (g : LangRedirect Handler) w r strategy :
  getStrategy g = Ok strategy -> strategy <> HeaderStrategy ->
  Hdr (request (ServeHTTP g w r)) = Hdr r.
Proof.
  intros Hs Hne.
  destruct (request_cases g w r)
    as [[_ ->] | [(_ & _ & ->) | [(s & _ & _ & _ & ->) | (s & _ & Hs' & _ & ->)]]];
    try reflexivity.
  assert (s = strategy) as -> by congruence.
  destruct strategy; simpl; [congruence | | reflexivity].
  unfold PathStrategy_SetLanguage. now destruct (_ =? _).
Qed.

Lemma resolved_kept `{NetURL} {Handler} (g : LangRedirect Handler) w r strategy :
  getStrategy g = Ok strategy -> strategy <> HeaderStrategy ->
  resolvedLanguage g (request (ServeHTTP g w r)) = resolvedLanguage g r.
Proof.
  intros Hs Hne. unfold resolvedLanguage.
  now rewrite (request_headers_kept g w r strategy Hs Hne).
Qed.

(** Over a rooted or empty path, the path strategy reads back a tag of
    two bytes without ['/'] that it wrote. *)
Lemma PathStrategy_read_back w r language :
  String.length language = 2 -> ContainsByte language "/" = false ->
  Path (Url r) = "" \/ HasPrefix (Path (Url r)) "/" = true ->
  PathStrategy_GetLanguage (snd (PathStrategy_SetLanguage w r language)) = language.
Proof.
  intros Hlen Hslash Hrooted.
  destruct (PathStrategy_SetLanguage_path w r language Hrooted) as (tail & Htail & Hp).
  rewrite PathStrategy_GetLanguage_segment, Hp. simpl.
  now rewrite (upToSlash_concat language tail Hslash Htail), Hlen.
Qed.

End EngineMore.

Import EngineMore.

(** X12: with a recognized selector the handler never answers with an
    error: it forwards the request with the response untouched, or it
    writes one 302 redirect; with redirect-after-handling off it always
    forwards. *)
Theorem recognized_selector_forwards_or_redirects
    `{NetURL} {Handler : Type} (g : LangRedirect Handler) (w : ResponseWriter) (r : Request) :
  recognized (LanguageStrategy (config g)) ->
  ((exists r', ServeHTTP g w r = Forward (next g) w r')
   \/ (exists r', ServeHTTP g w r
                  = Return (w ++ [HttpRedirect (URL_String (Url r')) 302])%list r'))
  /\ (RedirectAfterHandling (config g) = false ->
      exists r', ServeHTTP g w r = Forward (next g) w r').
Proof.
  intros Hrec. destruct (recognized_getStrategy g Hrec) as [strategy Hs].
  destruct (spec_skip g r) eqn:Hskip.
  { rewrite (ServeHTTP_skip g w r Hskip). split; [left |]; eauto. }
  destruct (spec_noop strategy g r) eqn:Hnoop.
  { rewrite (ServeHTTP_noop g w r strategy Hskip Hs Hnoop). split; [left |]; eauto. }
  rewrite (ServeHTTP_write g w r strategy Hskip Hs Hnoop). simpl.
  destruct (RedirectAfterHandling (config g)).
  - split; [right; eauto | discriminate].
  - split; [left |]; eauto.
Qed.

Lemma recognized_selector_forwards_or_redirects_witness :
  exists r', @ServeHTTP rawNetURL unit (plugin (readmeConfig "query" false)) []
               (requestOf "de" "/about")
             = Forward tt [] r'.
Proof.
  apply (@recognized_selector_forwards_or_redirects rawNetURL unit
           (plugin (readmeConfig "query" false)) [] (requestOf "de" "/about")).
  - unfold recognized. simpl. auto.
  - reflexivity.
Defined.

(** X13: the configuration of [CreateConfig] with only a language list
    and a fallback filled in is accepted by [New], and the instance
    forwards every request to the next handler, with the response
    untouched and the URL as it came: only the header can change. *)
Theorem minimal_configuration_always_forwards
    {Handler : Type} (nxt : Handler) (languages : list string) (defaultLanguage : string) :
  languages <> [] -> defaultLanguage <> "" ->
  New nxt (minimalConfig languages defaultLanguage)
  = Ok (mkLangRedirect Handler nxt (minimalConfig languages defaultLanguage))
  /\ (forall `{NetURL} w r,
         exists r',
           ServeHTTP (mkLangRedirect Handler nxt (minimalConfig languages defaultLanguage)) w r
           = Forward nxt w r'
           /\ Url r' = Url r).
Proof.
  intros Hl Hd. split.
  - apply New_Ok_iff. repeat split; try assumption.
    intros [Hq _]. discriminate Hq.
  - intros lib w r.
    set (g := mkLangRedirect Handler nxt (minimalConfig languages defaultLanguage)).
    assert (Hs : getStrategy g = Ok HeaderStrategy) by reflexivity.
    destruct (spec_skip g r) eqn:Hskip.
    { exists r. now rewrite (ServeHTTP_skip g w r Hskip). }
    destruct (spec_noop HeaderStrategy g r) eqn:Hnoop.
    { exists r. now rewrite (ServeHTTP_noop g w r _ Hskip Hs Hnoop). }
    rewrite (ServeHTTP_write g w r _ Hskip Hs Hnoop). simpl. eauto.
Qed.

Lemma minimal_configuration_always_forwards_witness :
  New tt (minimalConfig ["en"; "de"] "en") = Ok (plugin (minimalConfig ["en"; "de"] "en"))
  /\ exists r',
       @ServeHTTP rawNetURL unit (plugin (minimalConfig ["en"; "de"] "en")) []
         (requestOf "de, en" "/about")
       = Forward tt [] r'
       /\ Url r' = Url (requestOf "de, en" "/about").
Proof.
  destruct (@minimal_configuration_always_forwards unit tt ["en"; "de"] "en")
    as [Hnew Hserve]; try discriminate.
  split; [exact Hnew | apply Hserve].
Defined.

(** X14: what a run of the handler can change depends on the strategy:
    under the header strategy the URL is left as it is; under any other
    selector the headers are left as they are, so the resolved language
    of the request stays the same; the path strategy leaves the raw
    query and the query strategy leaves the path. *)
Theorem handler_changes_only_its_channel
    `{NetURL} {Handler : Type} (g : LangRedirect Handler) (w : ResponseWriter) (r : Request) :
  (LanguageStrategy (config g) = StrategyHeader ->
   Url (request (ServeHTTP g w r)) = Url r)
  /\ (LanguageStrategy (config g) <> StrategyHeader ->
      Hdr (request (ServeHTTP g w r)) = Hdr r
      /\ resolvedLanguage g (request (ServeHTTP g w r)) = resolvedLanguage g r)
  /\ (LanguageStrategy (config g) = StrategyPath ->
      RawQuery (Url (request (ServeHTTP g w r))) = RawQuery (Url r))
  /\ (LanguageStrategy (config g) = StrategyQuery ->
      Path (Url (request (ServeHTTP g w r))) = Path (Url r)).
Proof.
  assert (Hpath : forall language,
             Hdr (snd (PathStrategy_SetLanguage w r language)) = Hdr r
             /\ RawQuery (Url (snd (PathStrategy_SetLanguage w r language)))
                = RawQuery (Url r)).
  { intros language. unfold PathStrategy_SetLanguage. destruct (_ =? _); simpl; auto. }
  destruct (request_cases g w r)
    as [[_ ->] | [(_ & _ & ->) | [(s & _ & _ & _ & ->) | (s & _ & Hs & _ & ->)]]];
    try (repeat split; reflexivity).
  split; [| split; [| split]].
  - intros Hsel. rewrite (getStrategy_header g Hsel) in Hs.
    injection Hs as <-. reflexivity.
  - intros Hsel.
    assert (Hh : Hdr (snd (SetLanguage s w r (resolvedLanguage g r))) = Hdr r).
    { destruct s; simpl.
      - exfalso. apply Hsel. unfold getStrategy in Hs.
        destruct (String.eqb_spec (LanguageStrategy (config g)) StrategyHeader);
          [assumption |].
        destruct (LanguageStrategy (config g) =? StrategyPath); [discriminate |].
        destruct (LanguageStrategy (config g) =? StrategyQuery); discriminate.
      - apply Hpath.
      - reflexivity. }
    split; [exact Hh |]. unfold resolvedLanguage in *. now rewrite Hh.
  - intros Hsel. rewrite (getStrategy_path g Hsel) in Hs.
    injection Hs as <-. simpl. apply Hpath.
  - intros Hsel. rewrite (getStrategy_query g Hsel) in Hs.
    injection Hs as <-. reflexivity.
Qed.

Lemma handler_changes_only_its_channel_witness :
  Url (request (@ServeHTTP rawNetURL unit (plugin (readmeConfig "header" true)) []
                  (requestOf "de" "/about")))
  = Url (requestOf "de" "/about")
  /\ Hdr (request (@ServeHTTP rawNetURL unit (plugin (readmeConfig "path" true)) []
                     (requestOf "de" "/about")))
     = Hdr (requestOf "de" "/about").
Proof.
  split.
  - apply (@handler_changes_only_its_channel rawNetURL unit
             (plugin (readmeConfig "header" true))). reflexivity.
  - apply (@handler_changes_only_its_channel rawNetURL unit
             (plugin (readmeConfig "path" true))). discriminate.
Defined.

(** X15: under the header strategy the next handler sees one negotiated
    tag: after a run that is not skipped, [Accept-Language] reads as the
    resolved language, and if that required a write the key holds this
    single value; a skipped request keeps the header it came with. *)
Theorem header_strategy_leaves_resolved_language
    `{NetURL} {Handler : Type} (g : LangRedirect Handler) (w : ResponseWriter) (r : Request) :
  LanguageStrategy (config g) = StrategyHeader ->
  Get (Hdr (request (ServeHTTP g w r))) "Accept-Language"
  = (if spec_skip g r then Get (Hdr r) "Accept-Language" else resolvedLanguage g r)
  /\ (spec_skip g r = false ->
      Get (Hdr r) "Accept-Language" <> resolvedLanguage g r ->
      Hdr (request (ServeHTTP g w r))
      = <["Accept-Language" := [resolvedLanguage g r]]> (Hdr r)).
Proof.
  intros Hsel. apply getStrategy_header in Hsel.
  destruct (spec_skip g r) eqn:Hskip.
  { rewrite (ServeHTTP_skip g w r Hskip). split; [reflexivity | discriminate]. }
  split.
  - apply (ServeHTTP_reads_resolved g w r HeaderStrategy Hsel Hskip).
    simpl. unfold HeaderStrategy_GetLanguage. simpl. apply Get_Set_.
  - intros _ Hne.
    assert (Hnoop : spec_noop HeaderStrategy g r = false).
    { unfold spec_noop. simpl. unfold HeaderStrategy_GetLanguage.
      apply String.eqb_neq in Hne. rewrite Hne. apply andb_false_r. }
    rewrite (ServeHTTP_write g w r _ Hskip Hsel Hnoop). simpl.
    now destruct (RedirectAfterHandling (config g)).
Qed.

Lemma header_strategy_leaves_resolved_language_witness :
  Get (Hdr (request (@ServeHTTP rawNetURL unit (plugin (readmeConfig "header" false)) []
                       (requestOf "it, de;q=0.5" "/about"))))
      "Accept-Language"
  = "de".
Proof.
  apply (@header_strategy_leaves_resolved_language rawNetURL unit
           (plugin (readmeConfig "header" false)) [] (requestOf "it, de;q=0.5" "/about")).
  reflexivity.
Defined.

(** X16: under the header strategy with redirect-after-handling on, a
    request that is not skipped and whose [Accept-Language] value is not
    already the resolved language is answered with a 302 redirect to its
    own, unchanged URL; the next handler is not called. *)
Theorem header_strategy_redirects_to_same_url
    `{NetURL} {Handler : Type} (g : LangRedirect Handler) (w : ResponseWriter) (r : Request) :
  LanguageStrategy (config g) = StrategyHeader ->
  RedirectAfterHandling (config g) = true ->
  spec_skip g r = false ->
  Get (Hdr r) "Accept-Language" <> resolvedLanguage g r ->
  ServeHTTP g w r
  = Return (w ++ [HttpRedirect (URL_String (Url r)) 302])%list
      {| Hdr := <["Accept-Language" := [resolvedLanguage g r]]> (Hdr r); Url := Url r |}.
Proof.
  intros Hsel Hflag Hskip Hne. apply getStrategy_header in Hsel.
  assert (Hnoop : spec_noop HeaderStrategy g r = false).
  { unfold spec_noop. simpl. unfold HeaderStrategy_GetLanguage.
    apply String.eqb_neq in Hne. rewrite Hne. apply andb_false_r. }
  rewrite (ServeHTTP_write g w r _ Hskip Hsel Hnoop). simpl. now rewrite Hflag.
Qed.

Lemma header_strategy_redirects_to_same_url_witness :
  @ServeHTTP rawNetURL unit (plugin (readmeConfig "header" true)) []
    (requestOf "de, en" "/about")
  = Return [HttpRedirect "/about?" 302] (requestOf "de" "/about").
Proof.
  apply (@header_strategy_redirects_to_same_url rawNetURL unit
           (plugin (readmeConfig "header" true)) [] (requestOf "de, en" "/about"));
    try reflexivity.
  vm_compute. discriminate.
Defined.

(** X17: the path strategy reads back what it wrote when the tag is
    exactly two bytes long and holds no ['/'], and the path it wrote
    over was empty or began with ['/']. *)
Theorem path_strategy_reads_back_two_byte_tag
    (w : ResponseWriter) (r : Request) (language : string) :
  String.length language = 2 ->
  ContainsByte language "/" = false ->
  Path (Url r) = "" \/ HasPrefix (Path (Url r)) "/" = true ->
  PathStrategy_GetLanguage (snd (PathStrategy_SetLanguage w r language)) = language.
Proof. apply PathStrategy_read_back. Qed.

Lemma path_strategy_reads_back_two_byte_tag_witness :
  PathStrategy_GetLanguage (snd (PathStrategy_SetLanguage [] (requestOf "de" "/fr/about") "de"))
  = "de".
Proof.
  apply (path_strategy_reads_back_two_byte_tag [] (requestOf "de" "/fr/about") "de");
    try reflexivity.
  right. reflexivity.
Defined.

(** X18: under the path strategy, for a resolved tag of exactly two
    bytes without ['/'] and a request path that is empty or begins with
    ['/'], the request a run leaves carries the tag as its first
    segment, and a further run on it (whatever the redirect flag)
    forwards it untouched and writes nothing: no second rewrite, no
    redirect loop. *)
Theorem path_strategy_settles_for_two_byte_tags
    `{NetURL} {Handler : Type} (g : LangRedirect Handler) (w : ResponseWriter) (r : Request) :
  LanguageStrategy (config g) = StrategyPath ->
  spec_skip g r = false ->
  String.length (resolvedLanguage g r) = 2 ->
  ContainsByte (resolvedLanguage g r) "/" = false ->
  Path (Url r) = "" \/ HasPrefix (Path (Url r)) "/" = true ->
  PathStrategy_GetLanguage (request (ServeHTTP g w r)) = resolvedLanguage g r
  /\ (forall w',
         ServeHTTP g w' (request (ServeHTTP g w r))
         = Forward (next g) w' (request (ServeHTTP g w r))).
Proof.
  intros Hsel Hskip Hlen Hslash Hrooted. apply getStrategy_path in Hsel.
  assert (Hraw : GetLanguage PathStrategy
                   (snd (SetLanguage PathStrategy w r (resolvedLanguage g r)))
                 = resolvedLanguage g r)
    by (now apply PathStrategy_read_back).
  split.
  - apply (ServeHTTP_reads_resolved g w r PathStrategy Hsel Hskip Hraw).
  - intros w'. apply (ServeHTTP_second_run g w w' r PathStrategy Hsel Hskip Hraw).
    now apply (resolved_kept g w r PathStrategy Hsel).
Qed.

Lemma path_strategy_settles_for_two_byte_tags_witness :
  PathStrategy_GetLanguage
    (request (@ServeHTTP rawNetURL unit (plugin (readmeConfig "path" true)) []
                (requestOf "de" "/about")))
  = "de"
  /\ @ServeHTTP rawNetURL unit (plugin (readmeConfig "path" true)) []
       (request (@ServeHTTP rawNetURL unit (plugin (readmeConfig "path" true)) []
                   (requestOf "de" "/about")))
     = Forward tt [] (requestOf "de" "/de/about").
Proof.
  destruct (@path_strategy_settles_for_two_byte_tags rawNetURL unit
              (plugin (readmeConfig "path" true)) [] (requestOf "de" "/about"))
    as [Hread Hagain]; try reflexivity.
  - right. reflexivity.
  - split; [exact Hread | exact (Hagain [])].
Defined.

(** X19: when encoding a query and parsing it again gives back the first
    value of the parameter (as [Values.Encode] and [url.ParseQuery] do),
    the query strategy reads back the language it wrote. *)
Theorem query_strategy_reads_back
    `{NetURL} (languageParam : string) (w : ResponseWriter) (r : Request) (language : string) :
  (forall v, Get (ParseQuery (Encode v)) languageParam = Get v languageParam) ->
  QueryStrategy_GetLanguage languageParam
    (snd (QueryStrategy_SetLanguage languageParam w r language))
  = language.
Proof.
  intros Hlaw. unfold QueryStrategy_GetLanguage, QueryStrategy_SetLanguage, Query. simpl.
  rewrite Hlaw. apply Get_Set_.
Qed.

Lemma query_strategy_reads_back_witness :
  @QueryStrategy_GetLanguage rawNetURL "q"
    (snd (@QueryStrategy_SetLanguage rawNetURL "q" [] (requestOf "de" "/about") "de"))
  = "de".
Proof.
  apply (@query_strategy_reads_back rawNetURL "q" [] (requestOf "de" "/about") "de").
  intros v. reflexivity.
Defined.

(** X20: under the query strategy, when encoding a query and parsing it
    again gives back the first value of the configured parameter, the
    request a run leaves carries the resolved language in that
    parameter, and a further run on it (whatever the redirect flag)
    forwards it untouched and writes nothing. *)
Theorem query_strategy_settles
    `{NetURL} {Handler : Type} (g : LangRedirect Handler) (w : ResponseWriter) (r : Request) :
  LanguageStrategy (config g) = StrategyQuery ->
  spec_skip g r = false ->
  (forall v, Get (ParseQuery (Encode v)) (LanguageParam (config g))
             = Get v (LanguageParam (config g))) ->
  QueryStrategy_GetLanguage (LanguageParam (config g)) (request (ServeHTTP g w r))
  = resolvedLanguage g r
  /\ (forall w',
         ServeHTTP g w' (request (ServeHTTP g w r))
         = Forward (next g) w' (request (ServeHTTP g w r))).
Proof.
  intros Hsel Hskip Hlaw. apply getStrategy_query in Hsel.
  set (strategy := QueryStrategy (LanguageParam (config g))) in *.
  assert (Hraw : GetLanguage strategy (snd (SetLanguage strategy w r (resolvedLanguage g r)))
                 = resolvedLanguage g r).
  { unfold strategy. simpl.
    unfold QueryStrategy_GetLanguage, QueryStrategy_SetLanguage, Query. simpl.
    rewrite Hlaw. apply Get_Set_. }
  split.
  - apply (ServeHTTP_reads_resolved g w r strategy Hsel Hskip Hraw).
  - intros w'. apply (ServeHTTP_second_run g w w' r strategy Hsel Hskip Hraw).
    now apply (resolved_kept g w r strategy Hsel).
Qed.

Lemma query_strategy_settles_witness :
  @QueryStrategy_GetLanguage rawNetURL "q"
    (request (@ServeHTTP rawNetURL unit
                (plugin (mkConfig ["en"; "de"] "en" false "query" "q" true)) []
                (requestOf "de" "/about")))
  = "de"
  /\ @ServeHTTP rawNetURL unit (plugin (mkConfig ["en"; "de"] "en" false "query" "q" true)) []
       (request (@ServeHTTP rawNetURL unit
                   (plugin (mkConfig ["en"; "de"] "en" false "query" "q" true)) []
                   (requestOf "de" "/about")))
     = Forward tt []
         (request (@ServeHTTP rawNetURL unit
                     (plugin (mkConfig ["en"; "de"] "en" false "query" "q" true)) []
                     (requestOf "de" "/about"))).
Proof.
  destruct (@query_strategy_settles rawNetURL unit
              (plugin (mkConfig ["en"; "de"] "en" false "query" "q" true)) []
              (requestOf "de" "/about"))
    as [Hread Hagain]; try reflexivity.
  split; [exact Hread | exact (Hagain [])].
Defined.

(** X21: resolving is stable from the second application on: for every
    configuration and header, the language resolved from the language
    resolved from the resolved language is the second of these.  (The
    first two can differ when the fallback reads as a list.) *)
Theorem resolving_stable_after_two {Handler : Type} (g : LangRedirect Handler) (h : string) :
  getPreferredLanguage g (getPreferredLanguage g (getPreferredLanguage g h))
  = getPreferredLanguage g (getPreferredLanguage g h).
Proof. apply getPreferredLanguage_stable. Qed.

(** X22: under the header strategy, whatever the configuration, two
    runs of the handler settle the request: a third run on the request
    left by the second forwards it untouched and writes nothing. *)
Theorem header_strategy_settles_after_two_runs
    `{NetURL} {Handler : Type} (g : LangRedirect Handler) (w w' : ResponseWriter)
    (r : Request) :
  LanguageStrategy (config g) = StrategyHeader ->
  ServeHTTP g w' (request (ServeHTTP_twice g w r))
  = Forward (next g) w' (request (ServeHTTP_twice g w r)).
Proof.
  intros Hsel. apply getStrategy_header in Hsel.
  assert (Hsettled : forall r0 w0,
             spec_skip g r0 = true \/ spec_noop HeaderStrategy g r0 = true ->
             ServeHTTP g w0 r0 = Forward (next g) w0 r0).
  { intros r0 w0 [Hs | Hn]; [now apply ServeHTTP_skip |].
    destruct (spec_skip g r0) eqn:Hs; [now apply ServeHTTP_skip |].
    now apply (ServeHTTP_noop g w0 r0 HeaderStrategy). }
  assert (Hwritten : forall r0 language,
             resolvedLanguage g
               {| Hdr := Set_ (Hdr r0) "Accept-Language" language; Url := Url r0 |}
             = getPreferredLanguage g language).
  { intros r0 language. unfold resolvedLanguage. simpl. now rewrite Get_Set_. }
  assert (Hstep : forall r0 w0,
             (spec_skip g r0 = true \/ spec_noop HeaderStrategy g r0 = true)
             \/ (spec_skip g r0 = false
                 /\ request (ServeHTTP g w0 r0)
                    = {| Hdr := Set_ (Hdr r0) "Accept-Language" (resolvedLanguage g r0);
                         Url := Url r0 |})).
  { intros r0 w0.
    destruct (spec_skip g r0) eqn:Hs; [auto |].
    destruct (spec_noop HeaderStrategy g r0) eqn:Hn; [auto |].
    right. split; [reflexivity |].
    rewrite (ServeHTTP_write g w0 r0 _ Hs Hsel Hn). simpl.
    now destruct (RedirectAfterHandling (config g)). }
  unfold ServeHTTP_twice.
  set (w1 := writer (ServeHTTP g w r)).
  destruct (Hstep r w) as [Hdone | [Hskip1 Hr1]].
  { rewrite (Hsettled r w Hdone). simpl.
    rewrite (Hsettled r _ Hdone). simpl. now apply Hsettled. }
  set (r1 := request (ServeHTTP g w r)) in *.
  destruct (Hstep r1 w1) as [Hdone | [Hskip2 Hr2]].
  { rewrite (Hsettled r1 w1 Hdone). simpl. now apply Hsettled. }
  set (r2 := request (ServeHTTP g w1 r1)) in *.
  assert (Hres1 : resolvedLanguage g r1 = getPreferredLanguage g (resolvedLanguage g r)).
  { rewrite Hr1. apply Hwritten. }
  assert (Hres2 : resolvedLanguage g r2 = resolvedLanguage g r1).
  { rewrite Hr2, Hwritten, Hres1. apply getPreferredLanguage_stable. }
  apply Hsettled. right. unfold spec_noop. simpl. unfold HeaderStrategy_GetLanguage.
  rewrite Hres2. rewrite Hr2 at 1 2. simpl. rewrite Get_Set_, String.eqb_refl.
  apply spec_skip_false in Hskip2 as [Hne _].
  apply String.eqb_neq in Hne. now rewrite Hne.
Qed.

Lemma header_strategy_settles_after_two_runs_witness :
  @ServeHTTP rawNetURL unit (plugin (mkConfig ["de"] "fr,de" true "header" "lang" false)) []
    (request (@ServeHTTP_twice rawNetURL unit
                (plugin (mkConfig ["de"] "fr,de" true "header" "lang" false)) []
                (requestOf "it" "/")))
  = Forward tt [] (requestOf "de" "/").
Proof.
  assert (E : request (@ServeHTTP_twice rawNetURL unit
                         (plugin (mkConfig ["de"] "fr,de" true "header" "lang" false)) []
                         (requestOf "it" "/"))
              = requestOf "de" "/") by (vm_compute; reflexivity).
  rewrite <- E.
  apply (@header_strategy_settles_after_two_runs rawNetURL unit
           (plugin (mkConfig ["de"] "fr,de" true "header" "lang" false))).
  reflexivity.
Defined.

(** X23: [strings.Split] on a one-byte separator: no piece holds the
    separator, there is one piece more than there are separators, and
    splitting [a + sep + b] gives the pieces of [a] followed by those of
    [b]. *)
Theorem Split_pieces (s a b : string) (sep : ascii) :
  Forall (fun piece => ContainsByte piece sep = false) (Split s sep)
  /\ List.length (Split s sep) = S (CountByte s sep)
  /\ Split (concat a (String sep b)) sep = (Split a sep ++ Split b sep)%list.
Proof.
  split; [apply Split_pieces_no_sep |]. split; [| apply Split_concat].
  apply length_cut. lia.
Qed.

(** X24: [strings.TrimSpace] only removes bytes at the two ends, leaves
    no white-space rune at either end, and so changes nothing when
    applied again. *)
Theorem TrimSpace_trims (s : string) :
  (exists p q, s = concat p (concat (TrimSpace s) q))
  /\ leadingRune spaceRunes (TrimSpace s) = None
  /\ leadingRune (map reverse spaceRunes) (reverse (TrimSpace s)) = None
  /\ TrimSpace (TrimSpace s) = TrimSpace s.
Proof.
  split; [| split; [| split]].
  - destruct (TrimLeftSpace_suffix s) as [p Hp].
    destruct (TrimRightSpace_prefix (TrimLeftSpace s)) as [q Hq].
    exists p, q. unfold TrimSpace. now rewrite <- Hq.
  - unfold TrimSpace.
    destruct (TrimRightSpace_prefix (TrimLeftSpace s)) as [q Hq].
    apply (leadingRune_concat _ _ q). rewrite <- Hq. apply TrimLeftSpace_done.
  - apply TrimRightSpace_done.
  - apply TrimSpace_idempotent.
Qed.

(** X25: a request without an [Accept-Language] value (the key missing,
    or present with no value) is resolved like an empty header: to the
    fallback, when no supported tag is empty; with default-language
    handling off it is then forwarded untouched. *)
Theorem request_without_header_resolves_to_fallback
    `{NetURL} {Handler : Type} (g : LangRedirect Handler) (w : ResponseWriter) (r : Request) :
  Hdr r !! "Accept-Language" = None \/ Hdr r !! "Accept-Language" = Some [] ->
  ~ In "" (Languages (config g)) ->
  resolvedLanguage g r = DefaultLanguage (config g)
  /\ (DefaultLanguageHandling (config g) = false ->
      ServeHTTP g w r = Forward (next g) w r).
Proof.
  intros Hmissing Hsup.
  assert (Hres : resolvedLanguage g r = DefaultLanguage (config g)).
  { unfold resolvedLanguage, Get.
    assert (E : match Hdr r !! "Accept-Language" with
                | Some (v :: _) => v
                | _ => ""
                end = "") by (destruct Hmissing as [-> | ->]; reflexivity).
    rewrite E. unfold getPreferredLanguage.
    rewrite matchLanguages_None; [reflexivity |].
    intros x [<- | []]. exact Hsup. }
  split; [exact Hres |].
  intros Hoff. apply ServeHTTP_skip. unfold spec_skip.
  rewrite Hres, Hoff, String.eqb_refl. simpl. apply orb_true_r.
Qed.

Lemma request_without_header_resolves_to_fallback_witness :
  resolvedLanguage (plugin (readmeConfig "path" true)) (mkRequest ∅ (mkURL "/about" ""))
  = "en"
  /\ @ServeHTTP rawNetURL unit (plugin (readmeConfig "path" true)) []
       (mkRequest ∅ (mkURL "/about" ""))
     = Forward tt [] (mkRequest ∅ (mkURL "/about" "")).
Proof.
  destruct (@request_without_header_resolves_to_fallback rawNetURL unit
              (plugin (readmeConfig "path" true)) [] (mkRequest ∅ (mkURL "/about" "")))
    as [Hres Hfwd].
  - left. reflexivity.
  - simpl. intros [E | [E | [E | []]]]; discriminate E.
  - split; [exact Hres | apply Hfwd; reflexivity].
Defined.
